(** * n8n-nodes-smb2: a shallow embedding of the node's logic

    The development follows the TypeScript sources:
    - [nodes/Smb2/helpers.ts]   ([Tree.prototype.renameFile],
      [SMB_ERROR_CODES], [getReadableError]),
    - [nodes/SMB2/Smb2.node.ts] ([SMB_ERROR_CODES], [getReadableError],
      [Smb2.execute], [formatEntry]),
    - [nodes/Smb2Trigger/Smb2Trigger.node.ts] ([Smb2Trigger.trigger]).

    JavaScript values are modelled by a small inductive type, thrown errors
    by an [outcome] type, and the calls into the SMB2 client library by
    events recorded in a trace, their results being read from an
    environment record. *)

From Stdlib Require Import ZArith String List Lia Bool Ascii.
From Stdlib Require Import DecimalString DecimalZ DecimalPos.
Import ListNotations.
Open Scope string_scope.

(* ================================================================= *)
(** ** JavaScript values *)

Module Js.

(** How an object converts to a string ([String(o)], template literals,
    property keys): a plain object gives ["[object Object]"], an [Error]
    instance goes through [Error.prototype.toString], [Rendered t]
    stands for an object whose conversion returns the text [t]
    (functions, objects with a [toString] method of their own), and
    [Unconvertible] for an object whose conversion throws a TypeError
    because it has no usable [toString] or [valueOf]
    ([Object.create(null)], [{ toString: null }]). *)
Inductive ObjClass : Type :=
| PlainObject
| ErrorObject
| Rendered (text : string)
| Unconvertible.

(** Numbers are the integers a double holds exactly and [ToString]
    writes in full, those of magnitude below 2^53 ([safe_integer]:
    status codes, errno values, item indices); [NaN], fractions and
    larger magnitudes are outside the model.  Objects carry their own
    properties as an association list; the conversion of an object is
    given by its class, so a property list holds no [toString] or
    [valueOf] entry ([modelled] says both); accessor properties, proxies
    and symbols are outside the model. *)
#[warnings="-register-all"]
Inductive JsVal : Type :=
| JUndefined
| JNull
| JBool (b : bool)
| JNum (n : Z)
| JStr (s : string)
| JObj (cls : ObjClass) (props : list (string * JsVal)).

Definition safe_integer (n : Z) : bool := (Z.abs n <? 2 ^ 53)%Z.

(** The decimal writing of a safe integer. *)
Definition number_to_string (n : Z) : string :=
  NilZero.string_of_int (Z.to_int n).

(** The values the model stands for: safe integers, and objects whose
    conversion is left to their class, at every depth. *)
Fixpoint modelled (v : JsVal) : bool :=
  match v with
  | JNum n => safe_integer n
  | JObj _ props =>
      (fix all (l : list (string * JsVal)) : bool :=
         match l with
         | [] => true
         | (k, x) :: rest =>
             negb (k =? "toString") && negb (k =? "valueOf")
             && modelled x && all rest
         end) props
  | _ => true
  end.

(** [ToBoolean]. *)
Definition truthy (v : JsVal) : bool :=
  match v with
  | JUndefined | JNull => false
  | JBool b => b
  | JNum n => negb (n =? 0)%Z
  | JStr s => negb (s =? "")
  | JObj _ _ => true
  end.

(** [a || b]. *)
Definition js_or (a b : JsVal) : JsVal := if truthy a then a else b.

Fixpoint own_property (props : list (string * JsVal)) (key : string)
  : option JsVal :=
  match props with
  | [] => None
  | (k, v) :: rest => if k =? key then Some v else own_property rest key
  end.

(** [v.key] for the property names the node reads ([header], [status],
    [code], [errno], [message], [name]).  [None] is the [TypeError] of a
    property read on [undefined] or [null]; primitives have none of these
    properties; [Error.prototype] supplies [name] and [message]. *)
Definition get_prop (v : JsVal) (key : string) : option JsVal :=
  match v with
  | JUndefined | JNull => None
  | JBool _ | JNum _ | JStr _ => Some JUndefined
  | JObj cls props =>
      match own_property props key with
      | Some x => Some x
      | None =>
          match cls with
          | ErrorObject =>
              if key =? "name" then Some (JStr "Error")
              else if key =? "message" then Some (JStr "")
              else Some JUndefined
          | _ => Some JUndefined
          end
      end
  end.

(** [v?.key]. *)
Definition opt_get (v : JsVal) (key : string) : option JsVal :=
  match v with
  | JUndefined | JNull => Some JUndefined
  | _ => get_prop v key
  end.

(** [String(v)], also the conversion of template literals and of
    property keys; [None] is the TypeError of a conversion that throws.
    An [Error] instance goes through [Error.prototype.toString]: the
    name (["Error"] when undefined) and the message ([""] when
    undefined) are converted in that order, and joined by [": "] when
    neither is empty. *)
Fixpoint to_string (v : JsVal) : option string :=
  match v with
  | JUndefined => Some "undefined"
  | JNull => Some "null"
  | JBool true => Some "true"
  | JBool false => Some "false"
  | JNum n => Some (number_to_string n)
  | JStr s => Some s
  | JObj PlainObject _ => Some "[object Object]"
  | JObj (Rendered t) _ => Some t
  | JObj Unconvertible _ => None
  | JObj ErrorObject props =>
      let part :=
        fix part (key default : string) (l : list (string * JsVal))
          {struct l} : option string :=
          match l with
          | [] => Some default
          | (k, x) :: rest =>
              if k =? key
              then match x with
                   | JUndefined => Some default
                   | _ => to_string x
                   end
              else part key default rest
          end in
      match part "name" "Error" props with
      | None => None
      | Some name =>
          match part "message" "" props with
          | None => None
          | Some msg =>
              if name =? "" then Some msg
              else if msg =? "" then Some name
              else Some (name ++ ": " ++ msg)
          end
      end
  end.

(** [v === s] for a string literal [s]. *)
Definition strict_eq_str (v : JsVal) (s : string) : bool :=
  match v with
  | JStr x => x =? s
  | _ => false
  end.

Definition is_string (v : JsVal) : bool :=
  match v with JStr _ => true | _ => false end.

(** What an object literal inherits from [Object.prototype], with the
    text Node.js prints for each member. *)
Definition native_function (name : string) : JsVal :=
  JObj (Rendered ("function " ++ name ++ "() { [native code] }")) [].

Definition Object_prototype : list (string * JsVal) :=
  [ ("constructor", native_function "Object");
    ("__defineGetter__", native_function "__defineGetter__");
    ("__defineSetter__", native_function "__defineSetter__");
    ("hasOwnProperty", native_function "hasOwnProperty");
    ("__lookupGetter__", native_function "__lookupGetter__");
    ("__lookupSetter__", native_function "__lookupSetter__");
    ("isPrototypeOf", native_function "isPrototypeOf");
    ("propertyIsEnumerable", native_function "propertyIsEnumerable");
    ("toString", native_function "toString");
    ("valueOf", native_function "valueOf");
    ("__proto__", JObj PlainObject []);
    ("toLocaleString", native_function "toLocaleString") ].

End Js.
Import Js.

(** Thrown values and normal results. *)
Inductive outcome (A : Type) : Type :=
| Ok (a : A)
| Throw (e : JsVal).
Arguments Ok {A} a.
Arguments Throw {A} e.

(** The TypeError of a conversion that throws. *)
Definition TypeError (msg : string) : JsVal :=
  JObj ErrorObject [("name", JStr "TypeError"); ("message", JStr msg)].

Definition conversion_error : JsVal :=
  TypeError "Cannot convert object to primitive value".

(* ================================================================= *)
(** ** The status-code table and [getReadableError]
    (helpers.ts and Smb2.node.ts carry the same table and the same
    function; the node's copy only adds a [debug] call.) *)

Definition SMB_ERROR_CODES : list (Z * string) :=
  [ (3221225525%Z, "Access Denied - Check your permissions for this file/folder");
    (3221225506%Z, "File/Path Not Found");
    (3221225514%Z, "Invalid Parameter");
    (3221225485%Z, "Sharing Violation - File is in use by another process");
    (3221225524%Z, "Object Name Invalid");
    (3221225534%Z, "Not Enough Quota");
    (3221225581%Z, "Logon Failure - Check your username, password, and domain");
    (3221226036%Z, "Bad Network Name - The specified share does not exist on the server");
    (2147942402%Z, "Network Name Not Found - Share does not exist");
    (2147942405%Z, "Network Path Not Found");
    (5%Z, "Access Denied");
    (32%Z, "Sharing Violation");
    (53%Z, "Network Path Not Found");
    (67%Z, "Network Name Not Found");
    (87%Z, "Invalid Parameter");
    (1314%Z, "Network Error") ].

(** The table's own entry under a property key: the numeric keys of the
    object literal are the decimal strings of the codes. *)
Fixpoint own_entry (table : list (Z * string)) (key : string)
  : option string :=
  match table with
  | [] => None
  | (c, s) :: rest =>
      if number_to_string c =? key then Some s else own_entry rest key
  end.

(** The table's entry for a code. *)
Definition status_message (c : Z) : option string :=
  own_entry SMB_ERROR_CODES (number_to_string c).

(** [SMB_ERROR_CODES[key]]: own entries first, then [Object.prototype]. *)
Definition SMB_ERROR_CODES_at (key : string) : JsVal :=
  match own_entry SMB_ERROR_CODES key with
  | Some s => JStr s
  | None =>
      match own_property Object_prototype key with
      | Some v => v
      | None => JUndefined
      end
  end.

Definition bind_opt {A B} (x : option A) (f : A -> option B) : option B :=
  match x with Some a => f a | None => None end.

Notation "'let?' x ':=' e 'in' k" := (bind_opt e (fun x => k))
  (at level 10, x name, e at level 100, k at level 200).

(** [error.header?.status || error.code || error.errno]; [None] when a
    property read throws. *)
Definition errorCode_of (error : JsVal) : option JsVal :=
  let? header := get_prop error "header" in
  let? status := opt_get header "status" in
  let? code := get_prop error "code" in
  let? errno := get_prop error "errno" in
  Some (js_or (js_or status code) errno).

(** [errorCode && SMB_ERROR_CODES[errorCode]], as far as its truth
    goes: the look-up is made only for a truthy code, whose conversion
    to a property key can throw. *)
Definition table_value (errorCode : JsVal) : option JsVal :=
  if truthy errorCode
  then let? key := to_string errorCode in Some (SMB_ERROR_CODES_at key)
  else Some JUndefined.

(** [None] is a TypeError thrown by the function: a string conversion
    that throws. *)
Definition getReadableError (error : JsVal) : option JsVal :=
  if negb (truthy error) then Some (JStr "Unknown error occurred") else
  let? errorCode := errorCode_of error in
  let? found := table_value errorCode in
  if truthy errorCode && truthy found
  then
    let? text := to_string found in
    let? code := to_string errorCode in
    Some (JStr (text ++ " (Code: " ++ code ++ ")"))
  else
  let? code := get_prop error "code" in
  if strict_eq_str code "ECONNREFUSED"
  then Some (JStr "Could not connect to SMB server - Connection refused")
  else if strict_eq_str code "ETIMEDOUT"
  then Some (JStr "Connection to SMB server timed out")
  else if strict_eq_str code "ENOTFOUND"
  then Some (JStr "SMB server not found - Check the server address")
  else
  let? message := get_prop error "message" in
  let? header := get_prop error "header" in
  let? status := opt_get header "status" in
  if negb (truthy message) && truthy status
  then
    let? code := to_string status in
    Some (JStr ("SMB server returned an error (Code: " ++ code ++ ")"))
  else if truthy message then Some message
  else let? text := to_string error in Some (JStr text).

(* ================================================================= *)
(** ** Calls into the client library and the host: the effect monad *)

Section Effects.

(** A computation emits events of type [E], in order, and ends with a
    value or a thrown error. *)
Context {E : Type}.

Definition M (A : Type) : Type := (list E * outcome A)%type.

Definition ret {A} (a : A) : M A := ([], Ok a).

Definition throw {A} (e : JsVal) : M A := ([], Throw e).

Definition bind {A B} (m : M A) (f : A -> M B) : M B :=
  match m with
  | (t, Ok a) => let (t', r) := f a in ((t ++ t')%list, r)
  | (t, Throw e) => (t, Throw e)
  end.

(** An awaited call: the event, and the result the environment gives. *)
Definition call {A} (ev : E) (result : outcome A) : M A := ([ev], result).

(** An event without a result ([debug]). *)
Definition emit_event (ev : E) : M unit := ([ev], Ok tt).

(** [try { m } catch (e) { handler e }]. *)
Definition try_catch {A} (m : M A) (handler : JsVal -> M A) : M A :=
  match m with
  | (t, Throw e) => let (t', r) := handler e in ((t ++ t')%list, r)
  | done => done
  end.

(** [try { m } finally { fin }]: [fin] runs on both exits, and an error
    thrown by [fin] takes the place of the result of [m]. *)
Definition try_finally {A} (m : M A) (fin : M unit) : M A :=
  let (t, r) := m in
  let (t', rf) := fin in
  match rf with
  | Ok _ => ((t ++ t')%list, r)
  | Throw e' => ((t ++ t')%list, Throw e')
  end.

Definition trace_of {A} (m : M A) : list E := fst m.
Definition result_of {A} (m : M A) : outcome A := snd m.

End Effects.

Notation "x <- m ;; k" := (bind m (fun x => k))
  (at level 61, m at next level, right associativity).
Notation "m ;;; k" := (bind m (fun _ => k))
  (at level 61, right associativity).

(* ================================================================= *)
(** ** [Tree.prototype.renameFile] (helpers.ts) *)

Module Rename.

(** The members of the library's [FilePipePrinterAccess] enumeration that
    [renameFile] names.  The enumeration lives in the client library; it
    is taken as a parameter. *)
Record FilePipePrinterAccess : Type := {
  Delete : Z;
  WriteAttributes : Z;
  ReadAttributes : Z;
  ReadControl : Z;
  Synchronize : Z
}.

(** The values the SMB2 protocol assigns to these access rights
    (MS-SMB2, file/pipe/printer access mask); the comments of helpers.ts
    give the first two, 65536 and 256. *)
Definition protocol_access : FilePipePrinterAccess := {|
  Delete := 65536;
  WriteAttributes := 256;
  ReadAttributes := 128;
  ReadControl := 131072;
  Synchronize := 1048576
|}.

(** JavaScript's [|]: both operands through [ToInt32], then bitwise or. *)
Definition ToInt32 (z : Z) : Z := ((z + 2 ^ 31) mod 2 ^ 32 - 2 ^ 31)%Z.

Definition js_bitor (a b : Z) : Z := Z.lor (ToInt32 a) (ToInt32 b).

Inductive FileEvent : Type :=
| RegisterFile
| FileOpen (path : string) (desiredAccess : Z)
| FileRename (newPath : string)
| FileClose.

(** What the server answers to the three requests. *)
Record FileServer : Type := {
  open_result : string -> Z -> outcome unit;
  rename_result : string -> outcome unit;
  close_result : outcome unit
}.

Definition desiredAccess (A : FilePipePrinterAccess) : Z :=
  js_bitor (js_bitor (js_bitor (js_bitor (Delete A) (WriteAttributes A))
                                (ReadAttributes A))
                     (ReadControl A))
           (Synchronize A).

Definition renameFile (A : FilePipePrinterAccess) (srv : FileServer)
    (path newPath : string) : M (E := FileEvent) unit :=
  emit_event RegisterFile ;;;
  call (FileOpen path (desiredAccess A))
       (open_result srv path (desiredAccess A)) ;;;
  call (FileRename newPath) (rename_result srv newPath) ;;;
  call FileClose (close_result srv).

(** The mask the claim describes: the four rights without [Synchronize]. *)
Definition four_rights (A : FilePipePrinterAccess) : Z :=
  js_bitor (js_bitor (js_bitor (Delete A) (WriteAttributes A))
                     (ReadAttributes A))
           (ReadControl A).

(** A server that accepts every request. *)
Definition accepting : FileServer := {|
  open_result := fun _ _ => Ok tt;
  rename_result := fun _ => Ok tt;
  close_result := Ok tt
|}.

(** The rights are values of a 31-bit non-negative range, on which
    [ToInt32] is the identity. *)
Definition valid_right (z : Z) : bool := ((0 <=? z) && (z <? 2 ^ 31))%Z.

Definition valid_rights (A : FilePipePrinterAccess) : bool :=
  valid_right (Delete A) && valid_right (WriteAttributes A)
  && valid_right (ReadAttributes A) && valid_right (ReadControl A)
  && valid_right (Synchronize A).

End Rename.

(* ================================================================= *)
(** ** The watch callback of [Smb2Trigger.trigger] *)

Module Trigger.

Definition eventMap : list (Z * string) :=
  [ (1%Z, "fileCreated");
    (2%Z, "fileDeleted");
    (3%Z, "fileUpdated");
    (4%Z, "folderCreated");
    (5%Z, "folderDeleted");
    (6%Z, "folderUpdated") ].

(** [eventMap[changeType]] for a numeric change type: the entry, or
    [undefined]. *)
Definition eventMap_at (changeType : Z) : JsVal :=
  match own_entry eventMap (number_to_string changeType) with
  | Some s => JStr s
  | None => JUndefined
  end.

(** The body of a change-notification response, as far as the callback
    reads it. *)
Record ResponseBody : Type := {
  changeType : Z;
  filename : string
}.

(** The callback passed to [tree.watchDirectory]: the list of emissions
    it makes for one response ([this.emit] is called at most once). *)
Definition on_response (event : string) (body : ResponseBody)
  : list ResponseBody :=
  if strict_eq_str (eventMap_at (changeType body)) event
  then [body]
  else [].

(** The emissions over the responses a subscription delivers. *)
Definition emissions (event : string) (responses : list ResponseBody)
  : list ResponseBody :=
  flat_map (on_response event) responses.

(** The values of the [event] parameter offered for a specific folder. *)
Definition event_options : list string :=
  [ "fileCreated"; "fileDeleted"; "fileUpdated"; "folderCreated";
    "folderDeleted"; "folderUpdated"; "watchFolderUpdated" ].

Definition mapped_types : list string := map snd eventMap.

End Trigger.

(* ================================================================= *)
(** ** The node: [formatEntry] and [Smb2.execute] (Smb2.node.ts) *)

Module Smb2.

(** The library's [DirectoryEntry], as far as [formatEntry] reads it. *)
Record DirectoryEntry : Type := {
  type : JsVal;
  filename : string;
  fileAttributes : JsVal;
  creationTime : JsVal;
  lastAccessTime : JsVal;
  lastWriteTime : JsVal;
  changeTime : JsVal;
  fileSize : JsVal
}.

(** The object literal [formatEntry] returns; a time is [Some v] for
    [new Date(v)] and [None] for [undefined]. *)
Record FormattedEntry : Type := {
  f_type : string;
  f_name : string;
  f_path : string;
  f_attributes : JsVal;
  f_createTime : option JsVal;
  f_accessTime : option JsVal;
  f_modifyTime : option JsVal;
  f_changeTime : option JsVal;
  f_size : JsVal
}.

(** [v ? new Date(v) : undefined]. *)
Definition date_if_truthy (v : JsVal) : option JsVal :=
  if truthy v then Some v else None.

(** [basename] and [join] are Node's [path] functions; they are taken
    as parameters. *)
Definition formatEntry (basename : string -> string)
    (join : string -> string -> string)
    (entry : DirectoryEntry) (path : string) : FormattedEntry := {|
  f_type := if strict_eq_str (type entry) "Directory" then "d" else "l";
  f_name := basename (filename entry);
  f_path := join path (filename entry);
  f_attributes := fileAttributes entry;
  f_createTime := date_if_truthy (creationTime entry);
  f_accessTime := date_if_truthy (lastAccessTime entry);
  f_modifyTime := date_if_truthy (lastWriteTime entry);
  f_changeTime := date_if_truthy (changeTime entry);
  f_size := fileSize entry
|}.

(** *** Items *)

(** What [copyBinaryFile(filePath, fileName)] stores. *)
Record BinaryData : Type := {
  source_path : string;
  file_name : string
}.

(** The host's [INodeExecutionData]. *)
Record Item : Type := {
  json : list (string * JsVal);
  binary : list (string * BinaryData);
  pairedItem : option nat
}.

(** [o[key] = v] on an association list. *)
Fixpoint set_property {V : Type} (props : list (string * V))
    (key : string) (v : V) : list (string * V) :=
  match props with
  | [] => [(key, v)]
  | (k, x) :: rest =>
      if k =? key then (k, v) :: rest
      else (k, x) :: set_property rest key v
  end.

(** [items[i].json.error = msg]. *)
Definition set_error (item : Item) (msg : string) : Item := {|
  json := set_property (json item) "error" (JStr msg);
  binary := binary item;
  pairedItem := pairedItem item
|}.

(** An element of [returnItems]: a formatted directory entry pushed by
    [list], or an input item (annotated or not) pushed by the others. *)
Inductive ReturnItem : Type :=
| Listed (e : FormattedEntry)
| Passed (item : Item).

Inductive Content : Type :=
| TextContent (s : string)
| BufferContent (b : list Byte.byte).

(** The result of [tmpFile]. *)
Record TmpFile : Type := {
  tmp_path : string;
  has_cleanup : bool
}.

(** The node parameters of one item ([this.getNodeParameter(name, i)]);
    [replace] and [folder] are [None] when the option is unset. *)
Record Params : Type := {
  path : string;
  binaryPropertyName : string;
  binaryData : bool;
  fileContent : string;
  replace : option bool;
  folder : option bool;
  oldPath : string;
  newPath : string
}.

(** The calls that leave the node, in the order they are made. *)
Inductive Event : Type :=
| GetCredentials
| NewClient
| Authenticate
| ConnectTree
| ReadDirectory (p : string)
| TmpFileCreate
| CreateFileReadStream (p : string)
| Pipeline (tmp : string)
| CopyBinaryFile (tmp name : string)
| TmpCleanup (tmp : string)
| GetBinaryDataBuffer (i : nat) (key : string)
| Exists (p : string)
| RemoveFile (p : string)
| RemoveDirectory (p : string)
| CreateFile (p : string) (content : Content)
| RenameFile (old new : string)
| ClientClose
| DebugLog (label : string) (e : JsVal)
| Debug (e : JsVal).

(** The host and the server: the node's parameters and what every call
    of item [i] answers.  The two [client.close()] call sites have their
    own answers. *)
Record Host : Type := {
  operation : string;
  continueOnFail : bool;
  params : nat -> Params;
  basename : string -> string;
  join : string -> string -> string;
  getCredentials : outcome unit;
  authenticate : outcome unit;
  connectTree : outcome unit;
  readDirectory : nat -> string -> outcome (list DirectoryEntry);
  tmpFile : nat -> outcome (option TmpFile);
  createFileReadStream : nat -> string -> outcome unit;
  pipeline : nat -> outcome unit;
  copyBinaryFile : nat -> outcome unit;
  tmp_cleanup : nat -> outcome unit;
  getBinaryDataBuffer : nat -> string -> outcome (option (list Byte.byte));
  exists_ : nat -> string -> outcome bool;
  removeFile : nat -> string -> outcome unit;
  removeDirectory : nat -> string -> outcome unit;
  createFile : nat -> string -> Content -> outcome unit;
  renameFile : nat -> string -> string -> outcome unit;
  close_after_loop : outcome unit;
  close_in_catch : outcome unit
}.

(** The host's error classes, as the node constructs them: the object
    carries the message, description and item index the node passes.
    The host's constructors are not part of this repository; they keep
    a message as passed unless it names a system error (ECONNRESET,
    ENOENT, ...) or, for NodeApiError, the cause carries such a code, in
    which case they put a text of their own in its place.  The
    properties below are therefore those of the constructed object for
    the messages the host keeps, as are the fixed texts of this node;
    neither class has a [header], [code] or [errno] property. *)
Definition NodeOperationError (message : string)
    (description : option string) (itemIndex : option nat) : JsVal :=
  JObj ErrorObject
    [ ("name", JStr "NodeOperationError");
      ("message", JStr message);
      ("description",
        match description with Some d => JStr d | None => JUndefined end);
      ("context",
        JObj PlainObject
          [("itemIndex",
             match itemIndex with
             | Some i => JNum (Z.of_nat i)
             | None => JUndefined
             end)]) ].

Definition is_NodeApiError (v : JsVal) : bool :=
  match v with
  | JObj ErrorObject props =>
      match own_property props "name" with
      | Some name => strict_eq_str name "NodeApiError"
      | None => false
      end
  | _ => false
  end.

(** [new NodeApiError(node, cause, { message })]; given a NodeApiError
    as cause, the host's constructor returns that very object. *)
Definition NodeApiError (cause : JsVal) (message : string) : JsVal :=
  if is_NodeApiError cause then cause
  else JObj ErrorObject
         [ ("name", JStr "NodeApiError");
           ("message", JStr message);
           ("cause", cause) ].

Definition check_settings : string :=
  "Check your SMB connection settings and file permissions".

Definition N (A : Type) : Type := M (E := Event) A.

Definition push (returnItems : list ReturnItem) (item : Item)
  : list ReturnItem :=
  (returnItems ++ [Passed item])%list.

(** [`${getReadableError(error)}`] with the node's own copy of
    [getReadableError], which calls [debug(error)] on a truthy error
    before anything else; the TypeError of a conversion that throws is
    thrown on. *)
Definition readable (error : JsVal) : N string :=
  (if truthy error then emit_event (Debug error) else ret tt) ;;;
  match getReadableError error with
  | None => throw conversion_error
  | Some readableError =>
      match to_string readableError with
      | None => throw conversion_error
      | Some text => ret text
      end
  end.

(** The [catch] block shared, up to its texts, by download, upload,
    delete and rename. *)
Definition on_failure (h : Host) (label what : string) (i : nat)
    (item : Item) (returnItems : list ReturnItem) (error : JsVal)
  : N (list ReturnItem) :=
  emit_event (DebugLog label error) ;;;
  readableError <- readable error ;;
  if continueOnFail h
  then ret (push returnItems (set_error item (what ++ readableError)))
  else throw (NodeOperationError (what ++ readableError)
                (Some check_settings) (Some i)).

(** *** list *)
Definition list_item (h : Host) (i : nat) (returnItems : list ReturnItem)
  : N (list ReturnItem) :=
  let p := path (params h i) in
  entries <- call (ReadDirectory p) (readDirectory h i p) ;;
  ret (returnItems
       ++ map (fun entry => Listed (formatEntry (basename h) (join h) entry p))
              entries)%list.

(** *** download *)
Definition download_body (h : Host) (i : nat) (item : Item)
    (returnItems : list ReturnItem) (binaryFile : option TmpFile)
  : N (list ReturnItem) :=
  let p := path (params h i) in
  match binaryFile with
  | None =>
      throw (NodeOperationError "Failed to create temporary file" None None)
  | Some f =>
      if tmp_path f =? ""
      then throw (NodeOperationError "Failed to create temporary file"
                    None None)
      else
        call (CreateFileReadStream p) (createFileReadStream h i p) ;;;
        call (Pipeline (tmp_path f)) (pipeline h i) ;;;
        call (CopyBinaryFile (tmp_path f) (basename h p))
             (copyBinaryFile h i) ;;;
        ret (push returnItems
               {| json := json item;
                  binary :=
                    set_property (binary item)
                      (binaryPropertyName (params h i))
                      {| source_path := tmp_path f;
                         file_name := basename h p |};
                  pairedItem :=
                    match pairedItem item with
                    | Some paired => Some paired
                    | None => Some i
                    end |})
  end.

Definition download_cleanup (h : Host) (i : nat)
    (binaryFile : option TmpFile) : N unit :=
  match binaryFile with
  | Some f =>
      if has_cleanup f
      then try_catch (call (TmpCleanup (tmp_path f)) (tmp_cleanup h i))
             (fun cleanupError =>
                emit_event (DebugLog "Error during cleanup:" cleanupError))
      else ret tt
  | None => ret tt
  end.

Definition download_item (h : Host) (i : nat) (item : Item)
    (returnItems : list ReturnItem) : N (list ReturnItem) :=
  let handler :=
    on_failure h "Download error:" "Failed to download file: "
      i item returnItems in
  match tmpFile h i with
  | Throw e => try_catch (call TmpFileCreate (Throw e)) handler
  | Ok binaryFile =>
      try_finally
        (try_catch
           (call TmpFileCreate (Ok tt) ;;;
            download_body h i item returnItems binaryFile)
           handler)
        (download_cleanup h i binaryFile)
  end.

(** *** upload *)

(** The content to write, or the [returnItems] of an early [continue]. *)
Definition upload_content (h : Host) (i : nat) (item : Item)
    (returnItems : list ReturnItem)
  : N (Content + list ReturnItem) :=
  let p := params h i in
  if binaryData p then
    let key := binaryPropertyName p in
    buffer <- call (GetBinaryDataBuffer i key) (getBinaryDataBuffer h i key) ;;
    match buffer with
    | None =>
        if continueOnFail h
        then ret (inr (push returnItems
                         (set_error item
                            ("Binary data not found for key " ++ key))))
        else throw (NodeOperationError
                      ("Binary data not found for key " ++ key) None None)
    | Some b => ret (inl (BufferContent b))
    end
  else
    let content := fileContent p in
    if content =? "" then
      if continueOnFail h
      then ret (inr (push returnItems
                       (set_error item "File content not found")))
      else throw (NodeOperationError "File content not found" None None)
    else ret (inl (TextContent content)).

(** From [options.replace === true] to [returnItems.push(items[i])]. *)
Definition upload_write (h : Host) (i : nat) (item : Item)
    (returnItems : list ReturnItem) (content : Content)
  : N (list ReturnItem) :=
  let p := path (params h i) in
  (match replace (params h i) with
   | Some true =>
       found <- call (Exists p) (exists_ h i p) ;;
       if (found : bool) then call (RemoveFile p) (removeFile h i p)
       else ret tt
   | _ => ret tt
   end) ;;;
  call (CreateFile p content) (createFile h i p content) ;;;
  ret (push returnItems item).

Definition upload_item (h : Host) (i : nat) (item : Item)
    (returnItems : list ReturnItem) : N (list ReturnItem) :=
  try_catch
    (c <- upload_content h i item returnItems ;;
     match c with
     | inr continued => ret continued
     | inl content => upload_write h i item returnItems content
     end)
    (on_failure h "Upload error:" "Failed to upload file: "
       i item returnItems).

(** *** delete *)
Definition delete_item (h : Host) (i : nat) (item : Item)
    (returnItems : list ReturnItem) : N (list ReturnItem) :=
  let p := path (params h i) in
  try_catch
    (match folder (params h i) with
     | Some true =>
         call (RemoveDirectory p) (removeDirectory h i p) ;;;
         ret (push returnItems item)
     | _ =>
         call (RemoveFile p) (removeFile h i p) ;;;
         ret (push returnItems item)
     end)
    (on_failure h "Delete error:" "Failed to delete file: "
       i item returnItems).

(** *** rename *)
Definition rename_item (h : Host) (i : nat) (item : Item)
    (returnItems : list ReturnItem) : N (list ReturnItem) :=
  let o := oldPath (params h i) in
  let n := newPath (params h i) in
  try_catch
    (call (RenameFile o n) (renameFile h i o n) ;;;
     ret (push returnItems item))
    (on_failure h "Rename error:" "Failed to rename file: "
       i item returnItems).

(** One turn of the [for] loop.  The values of the node parameters are
    inputs of the turn: it is modelled from the point where its
    [getNodeParameter] calls have returned. *)
Definition process_item (h : Host) (i : nat) (item : Item)
    (returnItems : list ReturnItem) : N (list ReturnItem) :=
  if operation h =? "list" then list_item h i returnItems
  else if operation h =? "download" then download_item h i item returnItems
  else if operation h =? "upload" then upload_item h i item returnItems
  else if operation h =? "delete" then delete_item h i item returnItems
  else if operation h =? "rename" then rename_item h i item returnItems
  else ret returnItems.

(** [for (let i = 0; i < items.length; i++)], from index [i] on. *)
Fixpoint process_items (h : Host) (i : nat) (items : list Item)
    (returnItems : list ReturnItem) : N (list ReturnItem) :=
  match items with
  | [] => ret returnItems
  | item :: rest =>
      r <- process_item h i item returnItems ;;
      process_items h (S i) rest r
  end.

(** The inner [try] of [execute]: credentials, client, session, tree. *)
Definition connect (h : Host) : N unit :=
  call GetCredentials (getCredentials h) ;;;
  emit_event NewClient ;;;
  call Authenticate (authenticate h) ;;;
  call ConnectTree (connectTree h).

(** Whether [client] has been assigned when the outer [catch] runs. *)
Definition client_defined (h : Host) : bool :=
  match getCredentials h with Ok _ => true | Throw _ => false end.

Definition connect_failure_item (msg : string) : Item := {|
  json := [("error", JStr msg)];
  binary := [];
  pairedItem := None
|}.

(** The inner [catch]: [Some r] is the early [return [[r]]]. *)
Definition on_connect_failure (h : Host) (error : JsVal)
  : N (option (list ReturnItem)) :=
  emit_event (DebugLog "Connect error: " error) ;;;
  readableError <- readable error ;;
  let msg := "Failed to connect to SMB server: " ++ readableError in
  if continueOnFail h
  then ret (Some [Passed (connect_failure_item msg)])
  else throw (NodeApiError error msg).

(** [execute]: the value is the single list of the returned array. *)
Definition execute (h : Host) (items : list Item) : N (list ReturnItem) :=
  try_catch
    (early <- try_catch (connect h ;;; ret None) (on_connect_failure h) ;;
     match early with
     | Some r => ret r
     | None =>
         returnItems <- process_items h 0 items [] ;;
         call ClientClose (close_after_loop h) ;;;
         ret returnItems
     end)
    (fun error =>
       (if client_defined h then call ClientClose (close_in_catch h)
        else ret tt) ;;;
       throw error).

End Smb2.

(* ================================================================= *)
(** ** The status table of the specification *)

(** The table of the specification, section 6, in its own words: the ten
    status codes with the meaning it gives for each. *)
Definition spec_status_table : list (Z * string) :=
  [ (3221225525%Z, "Access Denied");
    (3221225506%Z, "File/Path Not Found");
    (3221225514%Z, "Invalid Parameter");
    (3221225485%Z, "Sharing Violation");
    (3221225524%Z, "Object Name Invalid");
    (3221225534%Z, "Not Enough Quota");
    (3221225581%Z, "Logon Failure");
    (3221226036%Z, "Bad Network Name");
    (2147942402%Z, "Network Name Not Found");
    (2147942405%Z, "Network Path Not Found") ].

(** Its last row: the codes it calls POSIX-style aliases of the above. *)
Definition spec_posix_aliases : list Z := [5; 32; 53; 67; 87; 1314]%Z.

(** The codes whose string in the program is the specification's
    meaning, letter for letter. *)
Definition verbatim_codes : list Z :=
  [3221225506; 3221225514; 3221225524; 3221225534; 2147942405]%Z.

(** An error on which the claim's equation fails: [{ code: 5 }]. *)
Definition access_denied_error : JsVal :=
  JObj PlainObject [("code", JNum 5)].

(* ================================================================= *)
(** ** Concrete runs of the node *)

Module Runs.
Import Smb2.

Definition input_item (n : Z) : Item := {|
  json := [("id", JNum n)];
  binary := [];
  pairedItem := None
|}.

Definition two_items : list Item := [input_item 0; input_item 1].

(** The server refuses with status 0xC0000022, as the client library
    reports it. *)
Definition access_denied : JsVal :=
  JObj ErrorObject
    [ ("message", JStr "STATUS_ACCESS_DENIED");
      ("header", JObj PlainObject [("status", JNum 3221225525)]) ].

Definition socket_closed : JsVal :=
  JObj ErrorObject [("message", JStr "socket closed")].

Definition unlink_failed : JsVal :=
  JObj ErrorObject [("message", JStr "EBUSY: resource busy or locked")].

(** Parameters of an item: a path, a text content and the overwrite
    option. *)
Definition text_upload (content : string) (overwrite : option bool)
  : Params := {|
  path := "/docs/a.txt";
  binaryPropertyName := "data";
  binaryData := false;
  fileContent := content;
  replace := overwrite;
  folder := None;
  oldPath := "/docs/a.txt";
  newPath := "/docs/b.txt"
|}.

(** A host on which every call succeeds, except those given: the
    directory listing, the removal and the stream copy of item 0, the
    removal of a temporary file, and the close in the [catch] block. *)
Definition host (op : string) (cof : bool) (p : Params)
    (listing : outcome (list DirectoryEntry))
    (removal copying cleaning closing : outcome unit) : Host := {|
  operation := op;
  continueOnFail := cof;
  params := fun _ => p;
  basename := fun s => s;
  join := fun a b => a ++ "/" ++ b;
  getCredentials := Ok tt;
  authenticate := Ok tt;
  connectTree := Ok tt;
  readDirectory := fun i _ => if Nat.eqb i 0 then listing else Ok [];
  tmpFile := fun _ => Ok (Some {| tmp_path := "/tmp/n8n-smb2-1";
                                  has_cleanup := true |});
  createFileReadStream := fun _ _ => Ok tt;
  pipeline := fun i => if Nat.eqb i 0 then copying else Ok tt;
  copyBinaryFile := fun _ => Ok tt;
  tmp_cleanup := fun _ => cleaning;
  getBinaryDataBuffer := fun _ _ => Ok (Some []);
  exists_ := fun _ _ => Ok true;
  removeFile := fun i _ => if Nat.eqb i 0 then removal else Ok tt;
  removeDirectory := fun _ _ => Ok tt;
  createFile := fun _ _ _ => Ok tt;
  renameFile := fun _ _ _ => Ok tt;
  close_after_loop := Ok tt;
  close_in_catch := closing
|}.

(** Upload of an empty text with the overwrite option set. *)
Definition empty_upload_host (cof : bool) : Host :=
  host "upload" cof (text_upload "" (Some true))
    (Ok []) (Ok tt) (Ok tt) (Ok tt) (Ok tt).

(** Listing with continue-on-fail enabled; the first listing is
    refused. *)
Definition failing_list_host : Host :=
  host "list" true (text_upload "x" None)
    (Throw access_denied) (Ok tt) (Ok tt) (Ok tt) (Ok tt).

(** The same refusal on a delete, continue-on-fail enabled. *)
Definition failing_delete_host : Host :=
  host "delete" true (text_upload "x" None)
    (Ok []) (Throw access_denied) (Ok tt) (Ok tt) (Ok tt).

(** A refused delete, continue-on-fail disabled, and a connection whose
    close fails in the [catch] block. *)
Definition failing_close_host : Host :=
  host "delete" false (text_upload "x" None)
    (Ok []) (Throw access_denied) (Ok tt) (Ok tt) (Throw socket_closed).

(** A download whose stream copy is refused and whose temporary file
    cannot be removed. *)
Definition failing_cleanup_host : Host :=
  host "download" false (text_upload "x" None)
    (Ok []) (Ok tt) (Throw access_denied) (Throw unlink_failed) (Ok tt).

(** An entry of a listing that is a regular file. *)
Definition regular_file : DirectoryEntry := {|
  type := JStr "File";
  filename := "a.txt";
  fileAttributes := JNum 32;
  creationTime := JNum 1700000000000;
  lastAccessTime := JNum 1700000000000;
  lastWriteTime := JNum 1700000000000;
  changeTime := JNum 1700000000000;
  fileSize := JNum 12
|}.

(** The calls on the tree among the events of a run. *)
Definition is_tree_call (ev : Event) : bool :=
  match ev with
  | ReadDirectory _ | CreateFileReadStream _ | Exists _ | RemoveFile _
  | RemoveDirectory _ | CreateFile _ _ | RenameFile _ _ => true
  | _ => false
  end.

Definition tree_calls (t : list Event) : list Event := filter is_tree_call t.

(** The content an upload has at hand once the first half of its [try]
    block is through, if any. *)
Definition available_content (h : Host) (i : nat) : option Content :=
  let p := params h i in
  if binaryData p then
    match getBinaryDataBuffer h i (binaryPropertyName p) with
    | Ok (Some b) => Some (BufferContent b)
    | _ => None
    end
  else if fileContent p =? "" then None
  else Some (TextContent (fileContent p)).

(** The tree calls of an upload that has its content: [exists], then
    [removeFile] when it answered true, then [createFile], cut short at
    the first call that throws; without the overwrite option,
    [createFile] alone. *)
Definition upload_calls (h : Host) (i : nat) (content : Content)
  : list Event :=
  let p := path (params h i) in
  match replace (params h i) with
  | Some true =>
      match exists_ h i p with
      | Throw _ => [Exists p]
      | Ok false => [Exists p; CreateFile p content]
      | Ok true =>
          match removeFile h i p with
          | Throw _ => [Exists p; RemoveFile p]
          | Ok _ => [Exists p; RemoveFile p; CreateFile p content]
          end
      end
  | _ => [CreateFile p content]
  end.

End Runs.

(** [error.header?.status]. *)
Definition header_status (error : JsVal) : option JsVal :=
  let? header := get_prop error "header" in opt_get header "status".

(** The fixed texts for the three transport codes. *)
Definition transport_message (code : string) : string :=
  if code =? "ECONNREFUSED"
  then "Could not connect to SMB server - Connection refused"
  else if code =? "ETIMEDOUT" then "Connection to SMB server timed out"
  else "SMB server not found - Check the server address".

Definition transport_codes : list string :=
  ["ECONNREFUSED"; "ETIMEDOUT"; "ENOTFOUND"].

(** A [header.status] that does not reach the table: falsy, or a number
    without an entry. *)
Definition status_misses (status : JsVal) : Prop :=
  truthy status = false
  \/ exists n, status = JNum n /\ n <> 0%Z /\ status_message n = None.

(* ================================================================= *)
(** ** Batches: what [execute] is run on *)

Module Batch.
Import Smb2 Runs.

(** Credentials, session and tree are obtained. *)
Definition connected (h : Host) : Prop :=
  getCredentials h = Ok tt /\ authenticate h = Ok tt
  /\ connectTree h = Ok tt.

Definition connect_events : list Event :=
  [GetCredentials; NewClient; Authenticate; ConnectTree].

(** The operations [execute] has a branch for. *)
Definition operations : list string :=
  ["list"; "download"; "upload"; "delete"; "rename"].

Definition is_close (ev : Event) : bool :=
  match ev with ClientClose => true | _ => false end.

(** A host with other answers for the connection steps and for the
    close after the loop. *)
Definition with_connection (h : Host)
    (credentials session tree closing : outcome unit) : Host := {|
  operation := operation h;
  continueOnFail := continueOnFail h;
  params := params h;
  basename := basename h;
  join := join h;
  getCredentials := credentials;
  authenticate := session;
  connectTree := tree;
  readDirectory := readDirectory h;
  tmpFile := tmpFile h;
  createFileReadStream := createFileReadStream h;
  pipeline := pipeline h;
  copyBinaryFile := copyBinaryFile h;
  tmp_cleanup := tmp_cleanup h;
  getBinaryDataBuffer := getBinaryDataBuffer h;
  exists_ := exists_ h;
  removeFile := removeFile h;
  removeDirectory := removeDirectory h;
  createFile := createFile h;
  renameFile := renameFile h;
  close_after_loop := closing;
  close_in_catch := close_in_catch h
|}.

(** What a [catch] block of [execute] logs: the error under the block's
    label, and the error again inside [getReadableError] when it is
    truthy. *)
Definition failure_events (label : string) (e : JsVal) : list Event :=
  DebugLog label e :: (if truthy e then [Debug e] else []).

Definition connect_failure_events (e : JsVal) : list Event :=
  failure_events "Connect error: " e.

(** A delete on which every call succeeds. *)
Definition quiet_delete_host (cof : bool) : Host :=
  host "delete" cof (text_upload "x" None)
    (Ok []) (Ok tt) (Ok tt) (Ok tt) (Ok tt).

End Batch.

(* ================================================================= *)
(** ** What a batch returns, item by item *)

Module PerItem.
Import Smb2 Runs Batch.

(** The text of [`${getReadableError(error)}`], when no conversion
    throws. *)
Definition readable_text (error : JsVal) : option string :=
  match getReadableError error with
  | Some v => to_string v
  | None => None
  end.

(** A turn completes, or throws the TypeError of a caught error that
    has no string form. *)
Definition completes (m : N (list ReturnItem)) : Prop :=
  (exists r', result_of m = Ok r') \/ result_of m = Throw conversion_error.

(** The call a delete makes for item [i], and its answer. *)
Definition delete_call (h : Host) (i : nat) : Event :=
  match folder (params h i) with
  | Some true => RemoveDirectory (path (params h i))
  | _ => RemoveFile (path (params h i))
  end.

Definition delete_answer (h : Host) (i : nat) : outcome unit :=
  match folder (params h i) with
  | Some true => removeDirectory h i (path (params h i))
  | _ => removeFile h i (path (params h i))
  end.

(** A refused delete of the first item, continue-on-fail off, on a
    connection that closes. *)
Definition failing_close_free_host : Host :=
  host "delete" false (text_upload "x" None)
    (Ok []) (Throw access_denied) (Ok tt) (Ok tt) (Ok tt).

End PerItem.

(* ================================================================= *)
(** ** Calls by operation *)

Module Calls.
Import Smb2 Runs Batch.

(** The tree calls an operation's branch contains. *)
Definition allowed_call (op : string) (ev : Event) : bool :=
  match ev with
  | ReadDirectory _ => op =? "list"
  | CreateFileReadStream _ => op =? "download"
  | Exists _ | CreateFile _ _ => op =? "upload"
  | RemoveFile _ => (op =? "upload") || (op =? "delete")
  | RemoveDirectory _ => op =? "delete"
  | RenameFile _ _ => op =? "rename"
  | _ => false
  end.

(** Every tree call of a trace belongs to the operation. *)
Definition calls_within (op : string) (t : list Event) : Prop :=
  Forall (fun ev => is_tree_call ev = true -> allowed_call op ev = true) t.

(** The entries a listing returns for item [j], formatted. *)
Definition listed (h : Host) (entries : nat -> list DirectoryEntry)
    (j : nat) : list ReturnItem :=
  map (fun entry =>
         Listed (formatEntry (basename h) (join h) entry
                   (path (params h j))))
      (entries j).


Definition is_cleanup (ev : Event) : bool :=
  match ev with TmpCleanup _ => true | _ => false end.

(** A host whose downloads succeed, with the temporary file given. *)
Definition download_host (cof : bool) (cleaning : outcome unit) : Host :=
  host "download" cof (text_upload "x" None)
    (Ok []) (Ok tt) (Ok tt) cleaning (Ok tt).

Definition the_tmp_file : TmpFile :=
  {| tmp_path := "/tmp/n8n-smb2-1"; has_cleanup := true |}.

End Calls.

(* ================================================================= *)
(** ** [connectToSmbServer] (helpers.ts) and [Smb2Trigger.trigger] *)

Module Helpers.

(** The credentials record ([Smb2Credentials]). *)
Record Smb2Credentials : Type := {
  host : string;
  port : Z;
  domain : string;
  username : string;
  password : string;
  share : string;
  connectTimeout : Z;
  requestTimeout : Z
}.

(** The calls of [connectToSmbServer] and of the trigger. *)
Inductive Event : Type :=
| GetCredentials
| NewClient (host : string) (port connectTimeout requestTimeout : Z)
| DebugFormat (format : string) (args : list JsVal)
| Authenticate (domain username password : string)
| ConnectTree (share : string)
| DebugError (label : string) (e : JsVal)
| WatchDirectory (path : string) (recursive : bool)
| StopWatching
| ClientClose.

(** What the host and the server answer. *)
Record Server : Type := {
  getCredentials : outcome Smb2Credentials;
  authenticate : outcome unit;
  connectTree : outcome unit;
  watchDirectory : outcome unit;
  stopFunction : outcome unit;
  close : outcome unit
}.

Definition H (A : Type) : Type := M (E := Event) A.

Definition connecting_format : string :=
  "Connecting to %s on %s as (%s\%s) [connectTimeout: %s, requestTimeout: %s]".

Definition url_format : string := "smb://%s:%s@%s/%s".

(** The [catch] block of [connectToSmbServer] and of [trigger]. *)
Definition rethrow_as_connect_failure (error : JsVal) : H unit :=
  emit_event (DebugError "Connect error: " error) ;;;
  match PerItem.readable_text error with
  | None => throw conversion_error
  | Some readableError =>
      throw (Smb2.NodeApiError error
               ("Failed to connect to SMB server: " ++ readableError))
  end.

Definition connectToSmbServer (srv : Server) : H unit :=
  try_catch
    (c <- call GetCredentials (getCredentials srv) ;;
     emit_event (NewClient (host c) (port c) (connectTimeout c)
                   (requestTimeout c)) ;;;
     emit_event (DebugFormat connecting_format
                   [ JStr (share c); JStr (host c); JStr (domain c);
                     JStr (username c); JNum (connectTimeout c);
                     JNum (requestTimeout c) ]) ;;;
     emit_event (DebugFormat url_format
                   [ JStr (username c); JStr (password c); JStr (host c);
                     JStr (share c) ]) ;;;
     call (Authenticate (domain c) (username c) (password c))
          (authenticate srv) ;;;
     call (ConnectTree (share c)) (connectTree srv))
    rethrow_as_connect_failure.

(** [trigger]: the value is the returned [closeFunction], which
    [closeFunction] below runs.  Both branches of the test on
    [triggerOn] and [event] read the same parameter,
    [folderToWatch]. *)
Definition trigger (triggerOn event : string) (recursive : bool)
    (folderToWatch : string) (srv : Server) : H unit :=
  try_catch
    (connectToSmbServer srv ;;;
     let path :=
       if (triggerOn =? "specificFolder")
          && negb (event =? "watchFolderUpdated")
       then folderToWatch
       else folderToWatch in
     call (WatchDirectory path recursive) (watchDirectory srv))
    rethrow_as_connect_failure.

Definition closeFunction (srv : Server) : H unit :=
  call StopWatching (stopFunction srv) ;;;
  call ClientClose (close srv).

(** The calls of a connection that stands, in order. *)
Definition connect_steps (c : Smb2Credentials) : list Event :=
  [ GetCredentials;
    NewClient (host c) (port c) (connectTimeout c) (requestTimeout c);
    DebugFormat connecting_format
      [ JStr (share c); JStr (host c); JStr (domain c);
        JStr (username c); JNum (connectTimeout c);
        JNum (requestTimeout c) ];
    DebugFormat url_format
      [ JStr (username c); JStr (password c); JStr (host c);
        JStr (share c) ];
    Authenticate (domain c) (username c) (password c);
    ConnectTree (share c) ].

(** The error of the first connection step that fails, if any. *)
Definition first_failure (srv : Server) : option JsVal :=
  match getCredentials srv with
  | Throw e => Some e
  | Ok _ =>
      match authenticate srv with
      | Throw e => Some e
      | Ok _ =>
          match connectTree srv with
          | Throw e => Some e
          | Ok _ => None
          end
      end
  end.

Definition is_close (ev : Event) : bool :=
  match ev with ClientClose => true | _ => false end.

Definition sample_credentials : Smb2Credentials := {|
  host := "nas.local";
  port := 445;
  domain := "WORKGROUP";
  username := "alice";
  password := "s3cret";
  share := "public";
  connectTimeout := 5000;
  requestTimeout := 5000
|}.

(** A server that refuses the logon. *)
Definition refusing_logon : Server := {|
  getCredentials := Ok sample_credentials;
  authenticate :=
    Throw (JObj ErrorObject
             [ ("message", JStr "STATUS_LOGON_FAILURE");
               ("header", JObj PlainObject [("status", JNum 3221225581)]) ]);
  connectTree := Ok tt;
  watchDirectory := Ok tt;
  stopFunction := Ok tt;
  close := Ok tt
|}.

(** A server that accepts the connection and answers the watch request
    and the stop as given. *)
Definition watching (watch stop : outcome unit) : Server := {|
  getCredentials := Ok sample_credentials;
  authenticate := Ok tt;
  connectTree := Ok tt;
  watchDirectory := watch;
  stopFunction := stop;
  close := Ok tt
|}.

End Helpers.

(* ================================================================= *)
(** ** The node built on [connectToSmbServer]
    (the second version of Smb2.node.ts: it imports
    [connectToSmbServer] and [getReadableError] from helpers.ts and
    declares [binaryFile] once, before the loop) *)

Module Shared.
Import Smb2.

(** Its events: those of the connection helper and those of the loop. *)
Inductive Event : Type :=
| Connect (ev : Helpers.Event)
| Node (ev : Smb2.Event).

Definition S (A : Type) : Type := M (E := Event) A.

(** A computation with its events renamed. *)
Definition lift {E E' A : Type} (f : E -> E') (m : M (E := E) A)
  : M (E := E') A :=
  (map f (fst m), snd m).

(** [`${getReadableError(error)}`] with the [getReadableError] this
    version imports from helpers.ts, which logs nothing. *)
Definition readable (error : JsVal) : N string :=
  match getReadableError error with
  | None => throw conversion_error
  | Some readableError =>
      match to_string readableError with
      | None => throw conversion_error
      | Some text => ret text
      end
  end.

(** The [catch] block of download, upload, delete and rename. *)
Definition on_failure (h : Host) (label what : string) (i : nat)
    (item : Item) (returnItems : list ReturnItem) (error : JsVal)
  : N (list ReturnItem) :=
  emit_event (DebugLog label error) ;;;
  readableError <- readable error ;;
  if continueOnFail h
  then ret (push returnItems (set_error item (what ++ readableError)))
  else throw (NodeOperationError (what ++ readableError)
                (Some check_settings) (Some i)).

(** One download turn; [binaryFile] is the variable's value when the
    turn starts, and the value it has when the turn ends comes with the
    returned items.  The [try] block and the [finally] block read as in
    the first version. *)
Definition download_item (h : Host) (i : nat) (item : Item)
    (returnItems : list ReturnItem) (binaryFile : option TmpFile)
  : N (list ReturnItem * option TmpFile) :=
  let handler :=
    on_failure h "Download error:" "Failed to download file: "
      i item returnItems in
  match tmpFile h i with
  | Throw e =>
      r <- try_finally
             (try_catch (call TmpFileCreate (Throw e)) handler)
             (download_cleanup h i binaryFile) ;;
      ret (r, binaryFile)
  | Ok assigned =>
      r <- try_finally
             (try_catch
                (call TmpFileCreate (Ok tt) ;;;
                 download_body h i item returnItems assigned)
                handler)
             (download_cleanup h i assigned) ;;
      ret (r, assigned)
  end.

Definition upload_item (h : Host) (i : nat) (item : Item)
    (returnItems : list ReturnItem) : N (list ReturnItem) :=
  try_catch
    (c <- upload_content h i item returnItems ;;
     match c with
     | inr continued => ret continued
     | inl content => upload_write h i item returnItems content
     end)
    (on_failure h "Upload error:" "Failed to upload file: "
       i item returnItems).

Definition delete_item (h : Host) (i : nat) (item : Item)
    (returnItems : list ReturnItem) : N (list ReturnItem) :=
  let p := path (params h i) in
  try_catch
    (match folder (params h i) with
     | Some true =>
         call (RemoveDirectory p) (removeDirectory h i p) ;;;
         ret (push returnItems item)
     | _ =>
         call (RemoveFile p) (removeFile h i p) ;;;
         ret (push returnItems item)
     end)
    (on_failure h "Delete error:" "Failed to delete file: "
       i item returnItems).

Definition rename_item (h : Host) (i : nat) (item : Item)
    (returnItems : list ReturnItem) : N (list ReturnItem) :=
  let o := oldPath (params h i) in
  let n := newPath (params h i) in
  try_catch
    (call (RenameFile o n) (renameFile h i o n) ;;;
     ret (push returnItems item))
    (on_failure h "Rename error:" "Failed to rename file: "
       i item returnItems).

Definition keep {A B : Type} (b : B) (m : N A) : N (A * B) :=
  r <- m ;; ret (r, b).

Definition process_item (h : Host) (i : nat) (item : Item)
    (returnItems : list ReturnItem) (binaryFile : option TmpFile)
  : N (list ReturnItem * option TmpFile) :=
  if operation h =? "list"
  then keep binaryFile (list_item h i returnItems)
  else if operation h =? "download"
  then download_item h i item returnItems binaryFile
  else if operation h =? "upload"
  then keep binaryFile (upload_item h i item returnItems)
  else if operation h =? "delete"
  then keep binaryFile (delete_item h i item returnItems)
  else if operation h =? "rename"
  then keep binaryFile (rename_item h i item returnItems)
  else ret (returnItems, binaryFile).

Fixpoint process_items (h : Host) (i : nat) (items : list Item)
    (returnItems : list ReturnItem) (binaryFile : option TmpFile)
  : N (list ReturnItem) :=
  match items with
  | [] => ret returnItems
  | item :: rest =>
      st <- process_item h i item returnItems binaryFile ;;
      process_items h (Datatypes.S i) rest (fst st) (snd st)
  end.

(** Whether [client] has been assigned when the [catch] block runs:
    the destructuring assignment takes place once
    [connectToSmbServer] has returned. *)
Definition client_assigned (srv : Helpers.Server) : bool :=
  match result_of (Helpers.connectToSmbServer srv) with
  | Ok _ => true
  | Throw _ => false
  end.

(** [execute]; the connection is answered by [srv], the loop by [h]. *)
Definition execute (srv : Helpers.Server) (h : Host) (items : list Item)
  : S (list ReturnItem) :=
  try_catch
    (lift Connect (Helpers.connectToSmbServer srv) ;;;
     returnItems <- lift Node (process_items h 0 items [] None) ;;
     call (Node ClientClose) (close_after_loop h) ;;;
     ret returnItems)
    (fun error =>
       (if client_assigned srv
        then call (Node ClientClose) (close_in_catch h)
        else ret tt) ;;;
       throw error).

(** The events of the loop among the events of a run. *)
Fixpoint node_events (t : list Event) : list Smb2.Event :=
  match t with
  | [] => []
  | Node ev :: rest => ev :: node_events rest
  | Connect _ :: rest => node_events rest
  end.

(** The events of a run of the first version without the
    [debug(error)] of its own [getReadableError]. *)
Definition is_debug (ev : Smb2.Event) : bool :=
  match ev with Debug _ => true | _ => false end.

Definition without_debug (t : list Smb2.Event) : list Smb2.Event :=
  filter (fun ev => negb (is_debug ev)) t.

Definition quietly {A : Type} (m : N A) : N A :=
  (without_debug (fst m), snd m).

(** Whether [tmpFile] never throws over a range of indices. *)
Definition tmpFile_returns (h : Host) : Prop :=
  forall i, exists f, tmpFile h i = Ok f.

(** A server that accepts the connection. *)
Definition accepting : Helpers.Server :=
  Helpers.watching (Ok tt) (Ok tt).

(** A host with other answers of [tmpFile]. *)
Definition with_tmpFile (h : Host)
    (answer : nat -> outcome (option TmpFile)) : Host := {|
  operation := operation h;
  continueOnFail := continueOnFail h;
  params := params h;
  basename := basename h;
  join := join h;
  getCredentials := getCredentials h;
  authenticate := authenticate h;
  connectTree := connectTree h;
  readDirectory := readDirectory h;
  tmpFile := answer;
  createFileReadStream := createFileReadStream h;
  pipeline := pipeline h;
  copyBinaryFile := copyBinaryFile h;
  tmp_cleanup := tmp_cleanup h;
  getBinaryDataBuffer := getBinaryDataBuffer h;
  exists_ := exists_ h;
  removeFile := removeFile h;
  removeDirectory := removeDirectory h;
  createFile := createFile h;
  renameFile := renameFile h;
  close_after_loop := close_after_loop h;
  close_in_catch := close_in_catch h
|}.

(** Downloads under continue-on-fail where the temporary file of item 1
    cannot be created. *)
Definition second_tmpFile_fails : Host :=
  with_tmpFile (Calls.download_host true (Ok tt))
    (fun i => if Nat.eqb i 1 then Throw Runs.unlink_failed
              else Ok (Some Calls.the_tmp_file)).

End Shared.

(** The fall-backs of [getReadableError] in their order of precedence,
    stated over the error's [header.status], [code] and [message]: what
    the function is shown to return once the table has not been hit. *)
Definition after_table (error status code message : JsVal)
  : option JsVal :=
  if strict_eq_str code "ECONNREFUSED"
  then Some (JStr "Could not connect to SMB server - Connection refused")
  else if strict_eq_str code "ETIMEDOUT"
  then Some (JStr "Connection to SMB server timed out")
  else if strict_eq_str code "ENOTFOUND"
  then Some (JStr "SMB server not found - Check the server address")
  else if negb (truthy message) && truthy status
  then option_map
         (fun text =>
            JStr ("SMB server returned an error (Code: " ++ text ++ ")"))
         (to_string status)
  else if truthy message then Some message
  else option_map JStr (to_string error).

(** An object whose conversion to a string throws:
    [Object.create(null)]. *)
Definition null_prototype_object : JsVal := JObj Unconvertible [].

(** The table is not hit: the code is falsy, or its key names nothing
    in the table, own or inherited. *)
Definition misses_table (v : JsVal) : Prop :=
  truthy v = false
  \/ exists key, to_string v = Some key /\ SMB_ERROR_CODES_at key = JUndefined.

(* ================================================================= *)
(** * Properties *)

(** ** Helper lemmas on JavaScript values *)

Lemma to_int_not_nil (z : Z) :
  Z.to_int z <> Decimal.Pos Decimal.Nil
  /\ Z.to_int z <> Decimal.Neg Decimal.Nil.
Proof.
  destruct z as [|p|p]; simpl; split; try discriminate;
    intros H; inversion H as [H1];
    now apply (DecimalPos.Unsigned.to_uint_nonnil p).
Qed.

(** Distinct numbers have distinct decimal strings: a numeric key names
    one entry of an object literal. *)
Lemma number_to_string_inj (a b : Z) :
  number_to_string a = number_to_string b -> a = b.
Proof.
  unfold number_to_string. intros H. apply to_int_inj.
  destruct (to_int_not_nil a) as [A1 A2].
  destruct (to_int_not_nil b) as [B1 B2].
  pose proof (NilZero.isi _ A1 A2) as Ia.
  pose proof (NilZero.isi _ B1 B2) as Ib.
  rewrite H in Ia. rewrite Ia in Ib. now inversion Ib.
Qed.

Lemma number_to_string_eqb (a b : Z) :
  (number_to_string a =? number_to_string b) = (a =? b)%Z.
Proof.
  destruct (Z.eqb_spec a b) as [-> | N].
  - apply String.eqb_refl.
  - apply String.eqb_neq. intros H. apply N.
    now apply number_to_string_inj.
Qed.

(** The look-up under a numeric key is the look-up of the number. *)
Lemma own_entry_number (table : list (Z * string)) (c : Z) :
  own_entry table (number_to_string c)
  = option_map snd (find (fun e => (fst e =? c)%Z) table).
Proof.
  induction table as [|[k s] rest IH]; simpl; [reflexivity|].
  rewrite number_to_string_eqb. destruct (k =? c)%Z; [reflexivity|exact IH].
Qed.

Lemma get_prop_defined (v : JsVal) (key : string) :
  truthy v = true -> exists x, get_prop v key = Some x.
Proof.
  destruct v as [ | | b | n | s | cls props]; simpl; try discriminate;
    intros _; try (eexists; reflexivity).
  destruct (own_property props key) as [x|]; [eexists; reflexivity|].
  destruct cls; try (eexists; reflexivity).
  destruct (key =? "name"); [eexists; reflexivity|].
  destruct (key =? "message"); eexists; reflexivity.
Qed.

Lemma opt_get_defined (v : JsVal) (key : string) :
  exists x, opt_get v key = Some x.
Proof.
  destruct v as [ | | b | n | s | cls props];
    try (eexists; reflexivity).
  apply (get_prop_defined (JObj cls props) key); reflexivity.
Qed.

Lemma errorCode_of_truthy (error v : JsVal) :
  errorCode_of error = Some v -> truthy v = true -> truthy error = true.
Proof.
  destruct error as [ | | b | n | s | cls props]; simpl;
    try discriminate; try reflexivity;
    unfold errorCode_of; simpl; intros H; inversion H; subst;
    discriminate.
Qed.

Lemma own_entry_In (table : list (Z * string)) (key s : string) :
  own_entry table key = Some s -> exists c, In (c, s) table.
Proof.
  induction table as [|[c x] rest IH]; simpl; [discriminate|].
  destruct (number_to_string c =? key).
  - intros H; inversion H; subst. exists c. now left.
  - intros H. destruct (IH H) as [c' Hc']. exists c'. now right.
Qed.

Lemma SMB_ERROR_CODES_nonempty (c : Z) (s : string) :
  In (c, s) SMB_ERROR_CODES -> truthy (JStr s) = true /\ c <> 0%Z.
Proof.
  assert (F : forallb (fun e => negb (snd e =? "") && negb (fst e =? 0)%Z)
                SMB_ERROR_CODES = true) by reflexivity.
  rewrite forallb_forall in F. intros H. specialize (F _ H). simpl in F.
  apply andb_true_iff in F. destruct F as [F1 F2]. split; [exact F1|].
  intros ->. discriminate.
Qed.

(** ** [getReadableError] *)

Lemma getReadableError_falsy (error : JsVal) :
  truthy error = false ->
  getReadableError error = Some (JStr "Unknown error occurred").
Proof.
  intros F. unfold getReadableError. rewrite F. reflexivity.
Qed.

(** What the table holds under a key is undefined or truthy, and then
    has a text. *)
Lemma SMB_ERROR_CODES_at_cases (key : string) :
  SMB_ERROR_CODES_at key = JUndefined
  \/ (truthy (SMB_ERROR_CODES_at key) = true
      /\ exists text, to_string (SMB_ERROR_CODES_at key) = Some text).
Proof.
  unfold SMB_ERROR_CODES_at.
  destruct (own_entry SMB_ERROR_CODES key) as [s|] eqn:E.
  - right. destruct (own_entry_In _ _ _ E) as [c Hin].
    destruct (SMB_ERROR_CODES_nonempty _ _ Hin) as [Ts _].
    split; [exact Ts|]. now exists s.
  - assert (P : forall props,
               Forall (fun p => truthy (snd p) = true
                                /\ exists text, to_string (snd p) = Some text)
                      props ->
               match own_property props key with
               | Some v => v
               | None => JUndefined
               end = JUndefined
               \/ (truthy match own_property props key with
                          | Some v => v
                          | None => JUndefined
                          end = true
                   /\ exists text,
                        to_string match own_property props key with
                                  | Some v => v
                                  | None => JUndefined
                                  end = Some text)).
    { induction props as [|[k v] rest IH]; intros F; [now left|].
      simpl. inversion F as [|? ? Hv Hrest]; subst.
      destruct (k =? key); [right; exact Hv|now apply IH]. }
    apply P. unfold Object_prototype.
    repeat (constructor; [split; [reflexivity|eexists; reflexivity]|]).
    constructor.
Qed.

(** A truthy code with a truthy table value: its text, then the code. *)
Lemma getReadableError_hit (error v : JsVal) (key text : string) :
  errorCode_of error = Some v ->
  truthy v = true ->
  to_string v = Some key ->
  truthy (SMB_ERROR_CODES_at key) = true ->
  to_string (SMB_ERROR_CODES_at key) = Some text ->
  getReadableError error
  = Some (JStr (text ++ " (Code: " ++ key ++ ")")).
Proof.
  intros Hc Tv Hk Tf Ht. unfold getReadableError.
  rewrite (errorCode_of_truthy _ _ Hc Tv). cbn [negb].
  rewrite Hc. cbn [bind_opt]. unfold table_value. rewrite Tv, Hk.
  cbn [bind_opt]. rewrite Tf, Ht. reflexivity.
Qed.

(** A truthy code whose conversion throws. *)
Lemma getReadableError_key_throws (error v : JsVal) :
  errorCode_of error = Some v ->
  truthy v = true ->
  to_string v = None ->
  getReadableError error = None.
Proof.
  intros Hc Tv Hk. unfold getReadableError.
  rewrite (errorCode_of_truthy _ _ Hc Tv). cbn [negb].
  rewrite Hc. cbn [bind_opt]. unfold table_value. rewrite Tv, Hk.
  reflexivity.
Qed.

Lemma header_status_split (error status : JsVal) :
  header_status error = Some status ->
  exists header,
    get_prop error "header" = Some header
    /\ opt_get header "status" = Some status.
Proof.
  unfold header_status. destruct (get_prop error "header") as [h|];
    [|discriminate].
  cbn [bind_opt]. intros H. now exists h.
Qed.

(** The code the table is asked for, from the three properties. *)
Lemma errorCode_of_parts (error status code errno : JsVal) :
  header_status error = Some status ->
  get_prop error "code" = Some code ->
  get_prop error "errno" = Some errno ->
  errorCode_of error = Some (js_or (js_or status code) errno).
Proof.
  intros Hs Hc He. destruct (header_status_split _ _ Hs) as [h [Hh Hs']].
  unfold errorCode_of. rewrite Hh. cbn [bind_opt]. rewrite Hs'.
  cbn [bind_opt]. rewrite Hc. cbn [bind_opt]. rewrite He. reflexivity.
Qed.

Lemma getReadableError_no_hit (error v status code message : JsVal) :
  truthy error = true ->
  errorCode_of error = Some v ->
  misses_table v ->
  header_status error = Some status ->
  get_prop error "code" = Some code ->
  get_prop error "message" = Some message ->
  getReadableError error = after_table error status code message.
Proof.
  intros T Hv Miss Hst Hc Hm.
  destruct (header_status_split _ _ Hst) as [h [Hh Hs]].
  unfold getReadableError, after_table. rewrite T. cbn [negb]. rewrite Hv.
  cbn [bind_opt].
  assert (Tv : exists found,
             table_value v = Some found
             /\ truthy v && truthy found = false).
  { unfold table_value. destruct Miss as [F | [key [Hk Hu]]].
    - rewrite F. exists JUndefined. now split.
    - destruct (truthy v).
      + rewrite Hk. cbn [bind_opt]. rewrite Hu. exists JUndefined.
        now split.
      + exists JUndefined. now split. }
  destruct Tv as [found [E1 E2]]. rewrite E1. cbn [bind_opt]. rewrite E2.
  rewrite Hc. cbn [bind_opt]. rewrite Hm, Hh. cbn [bind_opt].
  rewrite Hs. cbn [bind_opt].
  destruct (strict_eq_str code "ECONNREFUSED"); [reflexivity|].
  destruct (strict_eq_str code "ETIMEDOUT"); [reflexivity|].
  destruct (strict_eq_str code "ENOTFOUND"); [reflexivity|].
  destruct (negb (truthy message) && truthy status).
  - destruct (to_string status); reflexivity.
  - destruct (truthy message); [reflexivity|].
    destruct (to_string error); reflexivity.
Qed.

(** The first truthy value among status, code and errno is the status
    when the status is truthy. *)
Lemma first_code_status (status code errno : JsVal) :
  truthy status = true -> js_or (js_or status code) errno = status.
Proof. intros T. unfold js_or. now rewrite T, T. Qed.

(** The two ways the function can throw. *)
Lemma getReadableError_throws_only (error status code errno message : JsVal) :
  truthy error = true ->
  header_status error = Some status ->
  get_prop error "code" = Some code ->
  get_prop error "errno" = Some errno ->
  get_prop error "message" = Some message ->
  getReadableError error = None ->
  (truthy (js_or (js_or status code) errno) = true
   /\ to_string (js_or (js_or status code) errno) = None)
  \/ (truthy message = false /\ to_string error = None).
Proof.
  intros T Hst Hc He Hm Hn.
  pose proof (errorCode_of_parts _ _ _ _ Hst Hc He) as Hv.
  set (v := js_or (js_or status code) errno) in *.
  destruct (truthy v) eqn:Tv.
  - destruct (to_string v) as [key|] eqn:Hk; [|now left].
    destruct (SMB_ERROR_CODES_at_cases key) as [U | [Tf [text Ht]]].
    + rewrite (getReadableError_no_hit error v status code message T Hv)
        in Hn; try assumption; [|right; now exists key].
      right. revert Hn. unfold after_table.
      destruct (strict_eq_str code "ECONNREFUSED"); [discriminate|].
      destruct (strict_eq_str code "ETIMEDOUT"); [discriminate|].
      destruct (strict_eq_str code "ENOTFOUND"); [discriminate|].
      destruct (truthy message) eqn:Tm; cbn [negb andb]; [discriminate|].
      destruct (truthy status) eqn:Ts.
      * subst v. rewrite (first_code_status _ code errno Ts) in Hk.
        rewrite Hk. cbn [option_map]. intros Hn. discriminate Hn.
      * destruct (to_string error); [discriminate|]. now split.
    + rewrite (getReadableError_hit error v key text Hv Tv Hk Tf Ht) in Hn.
      discriminate.
  - rewrite (getReadableError_no_hit error v status code message T Hv)
      in Hn; try assumption; [|now left].
    right. revert Hn. unfold after_table.
    destruct (strict_eq_str code "ECONNREFUSED"); [discriminate|].
    destruct (strict_eq_str code "ETIMEDOUT"); [discriminate|].
    destruct (strict_eq_str code "ENOTFOUND"); [discriminate|].
    destruct (truthy message) eqn:Tm; cbn [negb andb]; [discriminate|].
    destruct (truthy status) eqn:Ts.
    + subst v. rewrite (first_code_status _ code errno Ts) in Tv. congruence.
    + destruct (to_string error); [discriminate|]. now split.
Qed.

Lemma after_table_string (error status code message r : JsVal) :
  after_table error status code message = Some r ->
  truthy message = false \/ is_string message = true ->
  is_string r = true.
Proof.
  unfold after_table.
  destruct (strict_eq_str code "ECONNREFUSED");
    [intros H; inversion H; reflexivity|].
  destruct (strict_eq_str code "ETIMEDOUT");
    [intros H; inversion H; reflexivity|].
  destruct (strict_eq_str code "ENOTFOUND");
    [intros H; inversion H; reflexivity|].
  destruct (negb (truthy message) && truthy status).
  - destruct (to_string status); simpl; [|discriminate].
    intros H; inversion H; reflexivity.
  - destruct (truthy message) eqn:Tm.
    + intros H [F | S]; [discriminate|]. inversion H; subst. exact S.
    + destruct (to_string error); simpl; [|discriminate].
      intros H; inversion H; reflexivity.
Qed.

(** C1, as stated, fails: the table gives ["Access Denied"] for code 5,
    and [getReadableError] on an error carrying that code returns
    ["Access Denied (Code: 5)"], which is another string. *)
Lemma getReadableError_appends_code :
  status_message 5 = Some "Access Denied"
  /\ getReadableError access_denied_error
     = Some (JStr "Access Denied (Code: 5)")
  /\ getReadableError access_denied_error <> Some (JStr "Access Denied").
Proof.
  split; [reflexivity|]. split; [reflexivity|].
  vm_compute. discriminate.
Qed.

(** A code that names a member of [Object.prototype] hits the table
    as well: the entry is the inherited function. *)
Lemma getReadableError_inherited_key :
  getReadableError (JObj PlainObject [("code", JStr "constructor")])
  = Some (JStr ("function Object() { [native code] }"
                ++ " (Code: constructor)")).
Proof. reflexivity. Qed.

(** The function does throw: on [Object.create(null)] no code and no
    message is found and [String(error)] throws. *)
Lemma getReadableError_can_throw :
  getReadableError null_prototype_object = None.
Proof. reflexivity. Qed.

(** C1, amended.  On a falsy input ([null] and [undefined] included)
    [getReadableError] returns ["Unknown error occurred"].  On a truthy
    error, with [v] the first truthy value among [header.status], [code]
    and [errno] (or [errno] when none is truthy):
    - when [v] is a code of [SMB_ERROR_CODES], the result is the table's
      string followed by [" (Code: <code>)"]; more generally, when
      [SMB_ERROR_CODES[String(v)]] is truthy, the result is the text of
      that value followed by [" (Code: " + String(v) + ")"];
    - when [v] is falsy or [String(v)] names nothing in the table, own
      or inherited, the result is the fixed text of the transport code
      when [code] is ECONNREFUSED, ETIMEDOUT or ENOTFOUND; otherwise
      ["SMB server returned an error (Code: " + String(header.status) +
      ")"] when [message] is falsy and [header.status] truthy; otherwise
      [message] when it is truthy; otherwise [String(error)];
    - the function throws when the conversion of a truthy [v] to a
      string throws, and otherwise only when [message] is falsy and
      [String(error)] throws;
    - a result is a string whenever [message] is falsy or a string.
    The two cases of the table are all there are: what it holds under
    a key is undefined, or truthy with a text. *)
Theorem getReadableError_spec (error status code errno message : JsVal) :
  modelled error = true ->
  (truthy error = false ->
   getReadableError error = Some (JStr "Unknown error occurred"))
  /\ (truthy error = true ->
      header_status error = Some status ->
      get_prop error "code" = Some code ->
      get_prop error "errno" = Some errno ->
      get_prop error "message" = Some message ->
      let v := js_or (js_or status code) errno in
      (forall c s,
         v = JNum c -> status_message c = Some s ->
         getReadableError error
         = Some (JStr (s ++ " (Code: " ++ number_to_string c ++ ")")))
      /\ (forall key text,
            truthy v = true ->
            to_string v = Some key ->
            truthy (SMB_ERROR_CODES_at key) = true ->
            to_string (SMB_ERROR_CODES_at key) = Some text ->
            getReadableError error
            = Some (JStr (text ++ " (Code: " ++ key ++ ")")))
      /\ (misses_table v ->
          getReadableError error = after_table error status code message)
      /\ (truthy v = true -> to_string v = None ->
          getReadableError error = None)
      /\ (getReadableError error = None ->
          (truthy v = true /\ to_string v = None)
          \/ (truthy message = false /\ to_string error = None))
      /\ (forall r,
            getReadableError error = Some r ->
            truthy message = false \/ is_string message = true ->
            is_string r = true))
  /\ (forall key,
        SMB_ERROR_CODES_at key = JUndefined
        \/ (truthy (SMB_ERROR_CODES_at key) = true
            /\ exists text, to_string (SMB_ERROR_CODES_at key) = Some text)).
Proof.
  intros _. split; [apply getReadableError_falsy|].
  split; [|apply SMB_ERROR_CODES_at_cases].
  intros T Hst Hc He Hm v.
  pose proof (errorCode_of_parts _ _ _ _ Hst Hc He) as Hv. fold v in Hv.
  assert (Hit : forall key text,
            truthy v = true ->
            to_string v = Some key ->
            truthy (SMB_ERROR_CODES_at key) = true ->
            to_string (SMB_ERROR_CODES_at key) = Some text ->
            getReadableError error
            = Some (JStr (text ++ " (Code: " ++ key ++ ")"))).
  { intros key text Tv Hk Tf Ht.
    exact (getReadableError_hit error v key text Hv Tv Hk Tf Ht). }
  split; [|split; [exact Hit|split; [|split; [|split]]]].
  - intros c s Ev Hs.
    assert (Tc : truthy v = true).
    { rewrite Ev. simpl. apply negb_true_iff, Z.eqb_neq. intros ->.
      vm_compute in Hs. discriminate. }
    apply Hit; [exact Tc|now rewrite Ev| |].
    + unfold SMB_ERROR_CODES_at. unfold status_message in Hs. rewrite Hs.
      destruct (own_entry_In _ _ _ Hs) as [c' Hin].
      now destruct (SMB_ERROR_CODES_nonempty _ _ Hin).
    + unfold SMB_ERROR_CODES_at. unfold status_message in Hs.
      now rewrite Hs.
  - intros Miss.
    now apply (getReadableError_no_hit error v status code message).
  - intros Tv Hk. exact (getReadableError_key_throws error v Hv Tv Hk).
  - intros Hn.
    exact (getReadableError_throws_only error status code errno message
             T Hst Hc He Hm Hn).
  - intros r Hr Cond.
    destruct (truthy v) eqn:Tv.
    + destruct (to_string v) as [key|] eqn:Hk.
      * destruct (SMB_ERROR_CODES_at_cases key) as [U | [Tf [text Ht]]].
        -- rewrite (getReadableError_no_hit error v status code message
                      T Hv) in Hr; try assumption; [|right; now exists key].
           exact (after_table_string _ _ _ _ _ Hr Cond).
        -- rewrite (getReadableError_hit error v key text Hv Tv Hk Tf Ht)
             in Hr.
           inversion Hr; reflexivity.
      * rewrite (getReadableError_key_throws error v Hv Tv Hk) in Hr.
        discriminate.
    + rewrite (getReadableError_no_hit error v status code message T Hv)
        in Hr; try assumption; [|now left].
      exact (after_table_string _ _ _ _ _ Hr Cond).
Qed.

Lemma getReadableError_spec_witness :
  getReadableError access_denied_error
  = Some (JStr ("Access Denied" ++ " (Code: " ++ number_to_string 5 ++ ")")).
Proof.
  destruct (getReadableError_spec access_denied_error
              JUndefined (JNum 5) JUndefined JUndefined eq_refl)
    as [_ [Truthy _]].
  destruct (Truthy eq_refl eq_refl eq_refl eq_refl eq_refl) as [Hit _].
  apply (Hit 5%Z); reflexivity.
Defined.

(** ** The status table against the specification's *)

(** C5, as stated, fails: the specification's table gives ["Access
    Denied"] for 3221225525, and the program's table holds a longer
    string under that code. *)
Lemma status_table_not_verbatim :
  In (3221225525%Z, "Access Denied") spec_status_table
  /\ status_message 3221225525
     = Some "Access Denied - Check your permissions for this file/folder"
  /\ status_message 3221225525 <> Some "Access Denied".
Proof.
  split; [now left|]. split; [reflexivity|].
  vm_compute. discriminate.
Qed.

(** C5, amended.  The program's table has an entry for each code of the
    specification's table and no other.  For 3221225506, 3221225514,
    3221225524, 3221225534 and 2147942405 the string is the
    specification's meaning, letter for letter.  For the five other
    status codes it is the specification's meaning followed by [" - "]
    and a detail:
    - 3221225525: ["Access Denied - Check your permissions for this
      file/folder"];
    - 3221225485: ["Sharing Violation - File is in use by another
      process"];
    - 3221225581: ["Logon Failure - Check your username, password, and
      domain"];
    - 3221226036: ["Bad Network Name - The specified share does not
      exist on the server"];
    - 2147942402: ["Network Name Not Found - Share does not exist"].
    The aliases are mapped as: 5 to ["Access Denied"], 32 to ["Sharing
    Violation"], 53 to ["Network Path Not Found"], 67 to ["Network Name
    Not Found"], 87 to ["Invalid Parameter"], each the specification's
    meaning of a status code, and 1314 to ["Network Error"]. *)
Theorem status_table_refines_spec :
  (forall c m,
     In (c, m) spec_status_table ->
     exists s,
       status_message c = Some s
       /\ (s = m <-> In c verbatim_codes)
       /\ (~ In c verbatim_codes ->
           exists detail, detail <> "" /\ s = m ++ " - " ++ detail))
  /\ status_message 3221225525
     = Some ("Access Denied" ++ " - "
             ++ "Check your permissions for this file/folder")
  /\ status_message 3221225506 = Some "File/Path Not Found"
  /\ status_message 3221225514 = Some "Invalid Parameter"
  /\ status_message 3221225485
     = Some ("Sharing Violation" ++ " - "
             ++ "File is in use by another process")
  /\ status_message 3221225524 = Some "Object Name Invalid"
  /\ status_message 3221225534 = Some "Not Enough Quota"
  /\ status_message 3221225581
     = Some ("Logon Failure" ++ " - "
             ++ "Check your username, password, and domain")
  /\ status_message 3221226036
     = Some ("Bad Network Name" ++ " - "
             ++ "The specified share does not exist on the server")
  /\ status_message 2147942402
     = Some ("Network Name Not Found" ++ " - " ++ "Share does not exist")
  /\ status_message 2147942405 = Some "Network Path Not Found"
  /\ (status_message 5 = Some "Access Denied"
      /\ In (3221225525%Z, "Access Denied") spec_status_table)
  /\ (status_message 32 = Some "Sharing Violation"
      /\ In (3221225485%Z, "Sharing Violation") spec_status_table)
  /\ (status_message 53 = Some "Network Path Not Found"
      /\ In (2147942405%Z, "Network Path Not Found") spec_status_table)
  /\ (status_message 67 = Some "Network Name Not Found"
      /\ In (2147942402%Z, "Network Name Not Found") spec_status_table)
  /\ (status_message 87 = Some "Invalid Parameter"
      /\ In (3221225514%Z, "Invalid Parameter") spec_status_table)
  /\ status_message 1314 = Some "Network Error"
  /\ map fst SMB_ERROR_CODES
     = (map fst spec_status_table ++ spec_posix_aliases)%list.
Proof.
  split.
  - intros c m H. unfold spec_status_table in H. cbn [In] in H.
    repeat (destruct H as [H | H];
            [ inversion H; subst; eexists;
              split; [reflexivity|];
              split;
              [ split; [ first [ intros _; cbn [verbatim_codes In]; tauto
                               | intros E; vm_compute in E; discriminate ]
                       | first [ intros _; reflexivity
                               | intros E; cbn [verbatim_codes In] in E;
                                 repeat (destruct E as [E | E];
                                         [discriminate|]);
                                 contradiction ] ]
              | first [ intros _; eexists; split;
                        [|vm_compute; reflexivity]; discriminate
                      | intros N; exfalso; apply N;
                        cbn [verbatim_codes In]; tauto ] ]
            | ]).
    contradiction.
  - repeat (split; [first [reflexivity
                          | split; [reflexivity
                                   | unfold spec_status_table;
                                     cbn [In]; tauto]]|]).
    reflexivity.
Qed.

Lemma status_table_refines_spec_witness :
  exists s,
    status_message 3221225581 = Some s
    /\ (s = "Logon Failure" <-> In 3221225581%Z verbatim_codes)
    /\ (~ In 3221225581%Z verbatim_codes ->
        exists detail,
          detail <> "" /\ s = "Logon Failure" ++ " - " ++ detail).
Proof.
  destruct status_table_refines_spec as [H _].
  apply (H 3221225581%Z "Logon Failure").
  simpl. tauto.
Defined.

(** ** The watch callback *)

Module TriggerFacts.
Import Trigger.

(** The six entries, by code. *)
Lemma eventMap_at_cases (c : Z) :
  eventMap_at c
  = if (c =? 1)%Z then JStr "fileCreated"
    else if (c =? 2)%Z then JStr "fileDeleted"
    else if (c =? 3)%Z then JStr "fileUpdated"
    else if (c =? 4)%Z then JStr "folderCreated"
    else if (c =? 5)%Z then JStr "folderDeleted"
    else if (c =? 6)%Z then JStr "folderUpdated"
    else JUndefined.
Proof.
  unfold eventMap_at. rewrite own_entry_number.
  unfold eventMap. cbn [find fst].
  rewrite !(Z.eqb_sym _ c).
  repeat (destruct (c =? _)%Z; [reflexivity|]). reflexivity.
Qed.


Lemma eventMap_at_range (c : Z) :
  eventMap_at c = JUndefined
  \/ exists t, In t mapped_types /\ eventMap_at c = JStr t.
Proof.
  rewrite eventMap_at_cases. unfold mapped_types, eventMap.
  cbn [map snd In].
  repeat (destruct (c =? _)%Z;
          [right; eexists; split; [|reflexivity]; tauto|]).
  now left.
Qed.

Lemma on_response_emits (event : string) (body : ResponseBody) :
  on_response event body = [body]
  <-> eventMap_at (changeType body) = JStr event.
Proof.
  unfold on_response.
  destruct (eventMap_at (changeType body)) as [ | | b | n | s | cls props];
    simpl; try (split; discriminate).
  destruct (String.eqb_spec s event) as [-> | N]; split; try reflexivity.
  - discriminate.
  - intros H; inversion H; contradiction.
Qed.

Lemma on_response_drops (event : string) (body : ResponseBody) :
  eventMap_at (changeType body) <> JStr event ->
  on_response event body = [].
Proof.
  unfold on_response.
  destruct (eventMap_at (changeType body)) as [ | | b | n | s | cls props];
    simpl; try reflexivity.
  destruct (String.eqb_spec s event) as [-> | N]; [congruence|reflexivity].
Qed.



(** The scenario of the specification: with the filter [fileCreated], a
    creation of [a.txt] is emitted once and a later update is not. *)
Example watch_scenario :
  emissions "fileCreated"
    [ {| changeType := 1; filename := "a.txt" |};
      {| changeType := 3; filename := "a.txt" |} ]
  = [ {| changeType := 1; filename := "a.txt" |} ].
Proof. reflexivity. Qed.

(** C10.  ["watchFolderUpdated"] is offered as an event, it is none of
    the six values of [eventMap], and with it selected no response is
    ever emitted, whatever change-type codes arrive. *)
Theorem watchFolderUpdated_never_emits :
  In "watchFolderUpdated" event_options
  /\ ~ In "watchFolderUpdated" mapped_types
  /\ (forall body, on_response "watchFolderUpdated" body = [])
  /\ (forall responses, emissions "watchFolderUpdated" responses = []).
Proof.
  assert (NotIn : ~ In "watchFolderUpdated" mapped_types).
  { unfold mapped_types. simpl. intros H.
    repeat (destruct H as [H | H]; [discriminate|]). contradiction. }
  assert (Drop : forall body, on_response "watchFolderUpdated" body = []).
  { intros body. apply on_response_drops. intros H.
    destruct (eventMap_at_range (changeType body)) as [U | [t [Ht Et]]].
    - congruence.
    - rewrite Et in H. inversion H; subst. contradiction. }
  split; [unfold event_options; simpl; tauto|].
  split; [exact NotIn|]. split; [exact Drop|].
  intros responses. unfold emissions.
  induction responses as [|body rest IH]; simpl; [reflexivity|].
  now rewrite Drop, IH.
Qed.

End TriggerFacts.

(** ** [renameFile] *)

Module RenameFacts.
Import Rename.
Local Open Scope Z_scope.

Lemma valid_right_range (z : Z) :
  valid_right z = true <-> 0 <= z < 2 ^ 31.
Proof.
  unfold valid_right. rewrite andb_true_iff, Z.leb_le, Z.ltb_lt. tauto.
Qed.

Lemma ToInt32_small (z : Z) : 0 <= z < 2 ^ 31 -> ToInt32 z = z.
Proof.
  intros H. unfold ToInt32. rewrite Z.mod_small; lia.
Qed.

Lemma log2_below (a : Z) : 0 <= a < 2 ^ 31 -> Z.log2 a < 31.
Proof.
  intros [H0 H1]. destruct (Z.eq_dec a 0) as [-> | N]; [reflexivity|].
  apply Z.log2_lt_pow2; lia.
Qed.

Lemma lor_small (a b : Z) :
  0 <= a < 2 ^ 31 -> 0 <= b < 2 ^ 31 -> 0 <= Z.lor a b < 2 ^ 31.
Proof.
  intros Ha Hb.
  assert (0 <= Z.lor a b) as H0 by (apply Z.lor_nonneg; lia).
  split; [exact H0|].
  destruct (Z.eq_dec (Z.lor a b) 0) as [-> | N]; [reflexivity|].
  apply Z.log2_lt_pow2; [lia|].
  rewrite Z.log2_lor by lia.
  pose proof (log2_below a Ha). pose proof (log2_below b Hb). lia.
Qed.

Lemma js_bitor_small (a b : Z) :
  0 <= a < 2 ^ 31 -> 0 <= b < 2 ^ 31 ->
  js_bitor a b = Z.lor a b /\ 0 <= js_bitor a b < 2 ^ 31.
Proof.
  intros Ha Hb. unfold js_bitor.
  rewrite (ToInt32_small a Ha), (ToInt32_small b Hb).
  split; [reflexivity|now apply lor_small].
Qed.

(** On valid rights the mask is the bitwise union of the five. *)
Lemma desiredAccess_lor (A : FilePipePrinterAccess) :
  valid_rights A = true ->
  desiredAccess A
  = Z.lor (Z.lor (Z.lor (Z.lor (Delete A) (WriteAttributes A))
                        (ReadAttributes A))
                 (ReadControl A))
          (Synchronize A).
Proof.
  unfold valid_rights. rewrite !andb_true_iff, !valid_right_range.
  intros [[[[Hd Hw] Hr] Hc] Hs]. unfold desiredAccess.
  destruct (js_bitor_small _ _ Hd Hw) as [-> R1].
  destruct (js_bitor_small _ _ R1 Hr) as [-> R2].
  destruct (js_bitor_small _ _ R2 Hc) as [-> R3].
  destruct (js_bitor_small _ _ R3 Hs) as [-> _].
  reflexivity.
Qed.

(** The requests of a rename whose three requests are accepted. *)
Lemma renameFile_accepted (A : FilePipePrinterAccess) (srv : FileServer)
    (path newPath : string) :
  open_result srv path (desiredAccess A) = Ok tt ->
  rename_result srv newPath = Ok tt ->
  close_result srv = Ok tt ->
  renameFile A srv path newPath
  = ([ RegisterFile; FileOpen path (desiredAccess A);
       FileRename newPath; FileClose ], Ok tt).
Proof.
  intros Ho Hr Hc. unfold renameFile, bind, call, emit_event.
  rewrite Ho, Hr, Hc. reflexivity.
Qed.

(** A refused open ends the rename: no rename request, no close. *)
Lemma renameFile_open_refused (A : FilePipePrinterAccess)
    (srv : FileServer) (path newPath : string) (e : JsVal) :
  open_result srv path (desiredAccess A) = Throw e ->
  renameFile A srv path newPath
  = ([RegisterFile; FileOpen path (desiredAccess A)], Throw e).
Proof.
  intros Ho. unfold renameFile, bind, call, emit_event.
  rewrite Ho. reflexivity.
Qed.

(** C4, as stated, fails: with the protocol's values the mask of the
    open request is 1245568, which carries the [Synchronize] bit on top
    of the four rights (their union is 196992). *)
Lemma renameFile_mask_has_synchronize :
  trace_of (renameFile protocol_access accepting "old.txt" "new.txt")
  = [ RegisterFile; FileOpen "old.txt" 1245568;
      FileRename "new.txt"; FileClose ]
  /\ four_rights protocol_access = 196992
  /\ desiredAccess protocol_access <> four_rights protocol_access
  /\ Z.land (desiredAccess protocol_access) (Synchronize protocol_access)
     = Synchronize protocol_access.
Proof.
  split; [reflexivity|]. split; [reflexivity|].
  split; [vm_compute; discriminate|reflexivity].
Qed.

(** C4, amended.  [renameFile(path, newPath)] opens the source with a
    desired-access mask that is the union of exactly five rights
    (delete, write-attributes, read-attributes, read-control and
    synchronize), then issues the rename request naming the destination,
    then closes the handle, each request being made once the one before
    it was accepted. *)
Theorem renameFile_opens_with_five_rights (A : FilePipePrinterAccess)
    (srv : FileServer) (path newPath : string) :
  valid_rights A = true ->
  open_result srv path (desiredAccess A) = Ok tt ->
  rename_result srv newPath = Ok tt ->
  close_result srv = Ok tt ->
  renameFile A srv path newPath
  = ([ RegisterFile; FileOpen path (desiredAccess A);
       FileRename newPath; FileClose ], Ok tt)
  /\ (forall i,
        Z.testbit (desiredAccess A) i
        = (Z.testbit (Delete A) i || Z.testbit (WriteAttributes A) i
           || Z.testbit (ReadAttributes A) i || Z.testbit (ReadControl A) i
           || Z.testbit (Synchronize A) i)%bool).
Proof.
  intros V Ho Hr Hc. split; [now apply renameFile_accepted|].
  intros i. rewrite (desiredAccess_lor A V), !Z.lor_spec. reflexivity.
Qed.

Lemma renameFile_opens_with_five_rights_witness :
  renameFile protocol_access accepting "old.txt" "new.txt"
  = ([ RegisterFile; FileOpen "old.txt" (desiredAccess protocol_access);
       FileRename "new.txt"; FileClose ], Ok tt)
  /\ (forall i,
        Z.testbit (desiredAccess protocol_access) i
        = (Z.testbit 65536 i || Z.testbit 256 i || Z.testbit 128 i
           || Z.testbit 131072 i || Z.testbit 1048576 i)%bool).
Proof.
  apply (renameFile_opens_with_five_rights protocol_access accepting
           "old.txt" "new.txt"); reflexivity.
Defined.

End RenameFacts.

(** ** The effect monad and the node *)

Section EffectFacts.
Context {E : Type}.

Lemma trace_bind {A B} (m : M (E := E) A) (f : A -> M B) :
  trace_of (bind m f)
  = (trace_of m
     ++ match result_of m with
        | Ok a => trace_of (f a)
        | Throw _ => []
        end)%list.
Proof.
  destruct m as [t [a | e]]; simpl.
  - destruct (f a); reflexivity.
  - now rewrite app_nil_r.
Qed.

Lemma result_bind {A B} (m : M (E := E) A) (f : A -> M B) :
  result_of (bind m f)
  = match result_of m with
    | Ok a => result_of (f a)
    | Throw e => Throw e
    end.
Proof.
  destruct m as [t [a | e]]; simpl; [|reflexivity].
  destruct (f a); reflexivity.
Qed.

Lemma trace_try_catch {A} (m : M (E := E) A) (handler : JsVal -> M A) :
  trace_of (try_catch m handler)
  = (trace_of m
     ++ match result_of m with
        | Ok _ => []
        | Throw e => trace_of (handler e)
        end)%list.
Proof.
  destruct m as [t [a | e]]; simpl.
  - now rewrite app_nil_r.
  - destruct (handler e); reflexivity.
Qed.

Lemma result_try_catch {A} (m : M (E := E) A) (handler : JsVal -> M A) :
  result_of (try_catch m handler)
  = match result_of m with
    | Ok a => Ok a
    | Throw e => result_of (handler e)
    end.
Proof.
  destruct m as [t [a | e]]; simpl; [reflexivity|].
  destruct (handler e); reflexivity.
Qed.

Lemma result_try_finally {A} (m : M (E := E) A) (fin : M unit) :
  result_of (try_finally m fin)
  = match result_of fin with
    | Ok _ => result_of m
    | Throw e => Throw e
    end.
Proof.
  destruct m as [t r], fin as [t' [u | e]]; reflexivity.
Qed.

End EffectFacts.

Module NodeFacts.
Import Smb2 Runs.

Lemma tree_calls_app (a b : list Event) :
  tree_calls (a ++ b) = (tree_calls a ++ tree_calls b)%list.
Proof. apply filter_app. Qed.

(** The node's copy of [getReadableError] logs a truthy error and makes
    no call. *)
Lemma readable_trace (e : JsVal) :
  trace_of (readable e) = if truthy e then [Debug e] else [].
Proof.
  unfold readable. rewrite trace_bind.
  destruct (truthy e); simpl;
    (destruct (getReadableError e) as [v|];
     [destruct (to_string v)|]; reflexivity).
Qed.

Lemma readable_result (e : JsVal) :
  result_of (readable e)
  = match PerItem.readable_text e with
    | Some text => Ok text
    | None => Throw conversion_error
    end.
Proof.
  unfold readable, PerItem.readable_text. rewrite result_bind.
  destruct (truthy e); simpl;
    (destruct (getReadableError e) as [v|];
     [destruct (to_string v)|]; reflexivity).
Qed.

Lemma readable_run (e : JsVal) :
  readable e
  = (if truthy e then [Debug e] else [],
     match PerItem.readable_text e with
     | Some text => Ok text
     | None => Throw conversion_error
     end).
Proof.
  pose proof (readable_trace e) as T. pose proof (readable_result e) as R.
  destruct (readable e) as [t r]. simpl in T, R. congruence.
Qed.

(** The shared [catch] block logs and makes no call. *)
Lemma on_failure_trace (h : Host) (label what : string) (i : nat)
    (item : Item) (r : list ReturnItem) (e : JsVal) :
  trace_of (on_failure h label what i item r e)
  = DebugLog label e :: (if truthy e then [Debug e] else []).
Proof.
  unfold on_failure. rewrite trace_bind. cbn [trace_of emit_event fst
    result_of snd app]. f_equal.
  rewrite trace_bind, readable_trace, readable_result.
  destruct (PerItem.readable_text e); [destruct (continueOnFail h)|];
    simpl; now rewrite app_nil_r.
Qed.

Lemma on_failure_tree_calls (h : Host) (label what : string) (i : nat)
    (item : Item) (r : list ReturnItem) (e : JsVal) :
  tree_calls (trace_of (on_failure h label what i item r e)) = [].
Proof. rewrite on_failure_trace. now destruct (truthy e). Qed.

(** What it ends with: the TypeError of a conversion that throws, the
    annotated item under continue-on-fail, or the error for the item. *)
Lemma on_failure_result (h : Host) (label what : string) (i : nat)
    (item : Item) (r : list ReturnItem) (e : JsVal) :
  result_of (on_failure h label what i item r e)
  = match PerItem.readable_text e with
    | None => Throw conversion_error
    | Some text =>
        if continueOnFail h
        then Ok (push r (set_error item (what ++ text)))
        else Throw (NodeOperationError (what ++ text)
                      (Some check_settings) (Some i))
    end.
Proof.
  unfold on_failure. rewrite result_bind. cbn [result_of emit_event snd].
  rewrite result_bind, readable_result.
  destruct (PerItem.readable_text e); [destruct (continueOnFail h)|];
    reflexivity.
Qed.

Lemma upload_content_available (h : Host) (i : nat) (item : Item)
    (r : list ReturnItem) (content : Content) :
  available_content h i = Some content ->
  tree_calls (trace_of (upload_content h i item r)) = []
  /\ result_of (upload_content h i item r) = Ok (inl content).
Proof.
  unfold available_content, upload_content.
  destruct (binaryData (params h i)).
  - destruct (getBinaryDataBuffer h i _) as [[b|]|e]; try discriminate.
    intros H; inversion H; subst. split; reflexivity.
  - destruct (fileContent (params h i) =? ""); [discriminate|].
    intros H; inversion H; subst. split; reflexivity.
Qed.

Lemma upload_write_calls (h : Host) (i : nat) (item : Item)
    (r : list ReturnItem) (content : Content) :
  tree_calls (trace_of (upload_write h i item r content))
  = upload_calls h i content.
Proof.
  unfold upload_write, upload_calls.
  destruct (replace (params h i)) as [[|]|]; try (
    rewrite !trace_bind; simpl;
    destruct (createFile h i _ _); reflexivity).
  rewrite !trace_bind, !result_bind. simpl.
  destruct (exists_ h i _) as [[|]|e]; simpl.
  - destruct (removeFile h i _); simpl; [|reflexivity].
    destruct (createFile h i _ _); reflexivity.
  - destruct (createFile h i _ _); reflexivity.
  - reflexivity.
Qed.

Lemma upload_item_calls (h : Host) (i : nat) (item : Item)
    (r : list ReturnItem) (content : Content) :
  available_content h i = Some content ->
  tree_calls (trace_of (upload_item h i item r)) = upload_calls h i content.
Proof.
  intros Av.
  destruct (upload_content_available h i item r content Av) as [Ht Hr].
  unfold upload_item.
  rewrite trace_try_catch, tree_calls_app, trace_bind, tree_calls_app.
  rewrite Ht, Hr. cbn [app].
  rewrite upload_write_calls.
  rewrite result_bind, Hr.
  destruct (result_of (upload_write h i item r content)).
  - now rewrite app_nil_r.
  - rewrite on_failure_tree_calls. now rewrite app_nil_r.
Qed.

(** Without its content an upload makes no call on the tree. *)
Lemma upload_item_no_content (h : Host) (i : nat) (item : Item)
    (r : list ReturnItem) :
  available_content h i = None ->
  tree_calls (trace_of (upload_item h i item r)) = [].
Proof.
  unfold available_content, upload_item. intros Av.
  rewrite trace_try_catch, tree_calls_app.
  assert (Body : tree_calls (trace_of (upload_content h i item r)) = []
                 /\ (forall c, result_of (upload_content h i item r)
                               <> Ok (inl c))).
  { unfold upload_content. destruct (binaryData (params h i)).
    - destruct (getBinaryDataBuffer h i _) as [[b|]|e];
        [discriminate| |split; [reflexivity|discriminate]].
      destruct (continueOnFail h); split; try reflexivity; discriminate.
    - destruct (fileContent (params h i) =? ""); [|discriminate].
      destruct (continueOnFail h); split; try reflexivity; discriminate. }
  destruct Body as [Bt Br].
  rewrite trace_bind, tree_calls_app, Bt, result_bind. cbn [app].
  destruct (result_of (upload_content h i item r)) as [[c | cont] | e].
  - now elim (Br c).
  - reflexivity.
  - cbn [tree_calls filter app]. apply on_failure_tree_calls.
Qed.

(** C3, as stated, fails: an upload with the overwrite option set and an
    empty text content makes no call on the tree at all, neither
    [exists] nor [createFile]. *)
Lemma overwrite_upload_without_calls :
  operation (empty_upload_host true) = "upload"
  /\ replace (params (empty_upload_host true) 0) = Some true
  /\ execute (empty_upload_host true) [input_item 0]
     = ([GetCredentials; NewClient; Authenticate; ConnectTree; ClientClose],
        Ok [Passed (set_error (input_item 0) "File content not found")])
  /\ tree_calls (trace_of (execute (empty_upload_host true) [input_item 0]))
     = [].
Proof. repeat split. Qed.

(** C3, amended.  For every upload that has its content (a binary
    buffer, or a text that is not empty): with the overwrite option true
    the calls on the tree are [exists(path)], then [removeFile(path)]
    only when [exists] answered true, then [createFile(path, content)],
    in that order and each made once the one before has returned; with
    the option false or unset the only call is
    [createFile(path, content)].  An upload without its content (an
    empty text, a missing buffer, a buffer that cannot be read) makes
    none of these calls, whatever the option. *)
Theorem upload_overwrite_calls (h : Host) (i : nat) (item : Item)
    (r : list ReturnItem) :
  let p := path (params h i) in
  let calls := tree_calls (trace_of (upload_item h i item r)) in
  (forall content,
     available_content h i = Some content ->
     (replace (params h i) <> Some true -> calls = [CreateFile p content])
     /\ (replace (params h i) = Some true ->
         (exists_ h i p = Ok false ->
          calls = [Exists p; CreateFile p content])
         /\ (exists_ h i p = Ok true -> removeFile h i p = Ok tt ->
             calls = [Exists p; RemoveFile p; CreateFile p content])
         /\ (forall e, exists_ h i p = Throw e -> calls = [Exists p])
         /\ (forall e, exists_ h i p = Ok true ->
                       removeFile h i p = Throw e ->
                       calls = [Exists p; RemoveFile p])))
  /\ (available_content h i = None -> calls = [])
  /\ (binaryData (params h i) = false ->
      fileContent (params h i) = "" -> calls = [])
  /\ (binaryData (params h i) = true ->
      getBinaryDataBuffer h i (binaryPropertyName (params h i)) = Ok None ->
      calls = []).
Proof.
  intros p calls. subst calls. split; [|split; [|split]].
  - intros content Av.
    rewrite (upload_item_calls h i item r content Av).
    unfold upload_calls. fold p. split.
    + intros N. destruct (replace (params h i)) as [[|]|];
        [congruence|reflexivity|reflexivity].
    + intros ->. repeat split.
      * intros ->. reflexivity.
      * intros -> ->. reflexivity.
      * intros e ->. reflexivity.
      * intros e -> ->. reflexivity.
  - apply upload_item_no_content.
  - intros B C. apply upload_item_no_content.
    unfold available_content. now rewrite B, C.
  - intros B G. apply upload_item_no_content.
    unfold available_content. now rewrite B, G.
Qed.

Lemma upload_overwrite_calls_witness :
  tree_calls
    (trace_of
       (upload_item
          (host "upload" false (text_upload "hello" (Some true))
             (Ok []) (Ok tt) (Ok tt) (Ok tt) (Ok tt))
          0 (input_item 0) []))
  = [ Exists "/docs/a.txt"; RemoveFile "/docs/a.txt";
      CreateFile "/docs/a.txt" (TextContent "hello") ]
  /\ tree_calls
       (trace_of (upload_item (empty_upload_host true) 0 (input_item 0) []))
     = [].
Proof.
  split.
  - apply (upload_overwrite_calls
             (host "upload" false (text_upload "hello" (Some true))
                (Ok []) (Ok tt) (Ok tt) (Ok tt) (Ok tt))
             0 (input_item 0) []) with (content := TextContent "hello");
      reflexivity.
  - destruct (upload_overwrite_calls (empty_upload_host true) 0
                (input_item 0) []) as [_ [Without _]].
    apply Without. reflexivity.
Defined.

(** *** The empty text *)

Lemma readable_content_not_found :
  getReadableError (NodeOperationError "File content not found" None None)
  = Some (JStr "File content not found").
Proof. reflexivity. Qed.

(** C9, as stated, fails: without continue-on-fail the error the
    upload of an empty text ends with is not ['File content not found']
    but that text behind ['Failed to upload file: ']. *)
Lemma empty_text_error_is_wrapped :
  binaryData (params (empty_upload_host false) 0) = false
  /\ fileContent (params (empty_upload_host false) 0) = ""
  /\ result_of (execute (empty_upload_host false) [input_item 0])
     = Throw (NodeOperationError
                "Failed to upload file: File content not found"
                (Some check_settings) (Some 0%nat))
  /\ result_of (execute (empty_upload_host false) [input_item 0])
     <> Throw (NodeOperationError "File content not found" None None)
  /\ get_prop (NodeOperationError
                 "Failed to upload file: File content not found"
                 (Some check_settings) (Some 0%nat)) "message"
     <> Some (JStr "File content not found").
Proof.
  split; [reflexivity|]. split; [reflexivity|]. split; [reflexivity|].
  split; vm_compute; discriminate.
Qed.

(** C9, amended.  An upload with [binaryData] false and an empty
    [fileContent] makes no call on the tree, [createFile] included:
    under continue-on-fail the item is pushed with the error ['File
    content not found']; otherwise the error ['File content not found']
    thrown inside the [try] block is caught and the upload ends with the
    error ['Failed to upload file: File content not found'] for that
    item. *)
Theorem empty_text_upload_rejected (h : Host) (i : nat) (item : Item)
    (r : list ReturnItem) :
  binaryData (params h i) = false ->
  fileContent (params h i) = "" ->
  upload_item h i item r
  = (if continueOnFail h
     then ([], Ok (push r (set_error item "File content not found")))
     else ([DebugLog "Upload error:"
              (NodeOperationError "File content not found" None None);
            Debug (NodeOperationError "File content not found" None None)],
           Throw (NodeOperationError
                    "Failed to upload file: File content not found"
                    (Some check_settings) (Some i))))
  /\ tree_calls (trace_of (upload_item h i item r)) = []
  /\ (forall p c, ~ In (CreateFile p c) (trace_of (upload_item h i item r))).
Proof.
  intros B C.
  assert (Run : upload_item h i item r
    = (if continueOnFail h
       then ([], Ok (push r (set_error item "File content not found")))
       else ([DebugLog "Upload error:"
                (NodeOperationError "File content not found" None None);
              Debug (NodeOperationError "File content not found" None None)],
             Throw (NodeOperationError
                      "Failed to upload file: File content not found"
                      (Some check_settings) (Some i))))).
  { unfold upload_item, upload_content. rewrite B, C.
    cbn [String.eqb]. destruct (continueOnFail h) eqn:K.
    - reflexivity.
    - unfold try_catch, bind, throw, on_failure, readable, emit_event.
      cbn [truthy]. rewrite readable_content_not_found, K. reflexivity. }
  rewrite Run. split; [reflexivity|].
  destruct (continueOnFail h); split; try reflexivity;
    intros p c H; simpl in H; intuition discriminate.
Qed.

Lemma empty_text_upload_rejected_witness :
  upload_item (empty_upload_host true) 0 (input_item 0) []
  = ([], Ok [Passed (set_error (input_item 0) "File content not found")]).
Proof.
  apply (empty_text_upload_rejected (empty_upload_host true) 0
           (input_item 0) []); reflexivity.
Defined.


(** *** Continue-on-fail *)

Lemma download_cleanup_returns (h : Host) (i : nat) (f : option TmpFile) :
  result_of (download_cleanup h i f) = Ok tt.
Proof.
  unfold download_cleanup. destruct f as [f|]; [|reflexivity].
  destruct (has_cleanup f); [|reflexivity].
  rewrite result_try_catch. simpl.
  destruct (tmp_cleanup h i) as [[]|e]; reflexivity.
Qed.

Lemma caught_continues (h : Host) (label what : string)
    (i : nat) (item : Item) (r : list ReturnItem)
    (m : N (list ReturnItem)) :
  continueOnFail h = true ->
  PerItem.completes (try_catch m (on_failure h label what i item r)).
Proof.
  intros C. unfold PerItem.completes. rewrite result_try_catch.
  destruct (result_of m) as [a | e]; [left; now exists a|].
  rewrite on_failure_result, C.
  destruct (PerItem.readable_text e); [left; eexists; reflexivity|now right].
Qed.

(** Download, upload, delete and rename keep the batch going under
    continue-on-fail: the turn of the loop completes, unless the error
    caught has no string form. *)
Lemma siblings_continue (h : Host) (i : nat) (item : Item)
    (r : list ReturnItem) :
  continueOnFail h = true ->
  (operation h =? "list") = false ->
  PerItem.completes (process_item h i item r).
Proof.
  intros C NotList. unfold process_item. rewrite NotList.
  destruct (operation h =? "download").
  { unfold download_item. destruct (tmpFile h i) as [f | e].
    - unfold PerItem.completes.
      rewrite result_try_finally, download_cleanup_returns.
      now apply (caught_continues).
    - now apply (caught_continues). }
  destruct (operation h =? "upload");
    [now apply (caught_continues)|].
  destruct (operation h =? "delete");
    [now apply (caught_continues)|].
  destruct (operation h =? "rename");
    [now apply (caught_continues)|].
  left. eexists; reflexivity.
Qed.

(** The item a failing sibling leaves behind carries the readable
    error: here a refused delete of the first of two items. *)
Example delete_continues :
  result_of (execute failing_delete_host two_items)
  = Ok [ Passed
           (set_error (input_item 0)
              ("Failed to delete file: "
               ++ "Access Denied - Check your permissions for this file/folder"
               ++ " (Code: 3221225525)"));
         Passed (input_item 1) ].
Proof. reflexivity. Qed.

(** The [list] branch has no [catch] of its own: whatever
    continue-on-fail says, a refused listing of the first item ends
    [execute] with the error of [readDirectory], after one close. *)
Lemma list_failure_aborts (h : Host) (item : Item) (rest : list Item)
    (e : JsVal) :
  operation h = "list" ->
  getCredentials h = Ok tt ->
  authenticate h = Ok tt ->
  connectTree h = Ok tt ->
  readDirectory h 0 (path (params h 0)) = Throw e ->
  close_in_catch h = Ok tt ->
  execute h (item :: rest)
  = ([ GetCredentials; NewClient; Authenticate; ConnectTree;
       ReadDirectory (path (params h 0)); ClientClose ],
     Throw e).
Proof.
  intros Op Cr Au Tr Rd Cl.
  unfold execute, connect, client_defined, process_items, process_item,
    list_item, try_catch, bind, call, emit_event, ret, throw.
  rewrite Op, Cr, Au, Tr, Rd, Cl. reflexivity.
Qed.

(** C6 fails on [list]: with continue-on-fail enabled and two items, a
    refused listing of the first item ends [execute] with the library's
    error; the first item is not annotated, the second is never listed
    ([readDirectory] is called once), and nothing is returned. *)
Theorem list_aborts_under_continueOnFail :
  operation failing_list_host = "list"
  /\ continueOnFail failing_list_host = true
  /\ execute failing_list_host two_items
     = ([ GetCredentials; NewClient; Authenticate; ConnectTree;
          ReadDirectory "/docs/a.txt"; ClientClose ],
        Throw access_denied).
Proof. repeat split. Qed.

(** *** Cleanup *)

(** When [execute] throws and the client exists, the connection was
    asked to close. *)
Lemma close_on_error (h : Host) (items : list Item) (e : JsVal) :
  result_of (execute h items) = Throw e ->
  client_defined h = true ->
  In ClientClose (trace_of (execute h items)).
Proof.
  unfold execute. intros R D. rewrite D in *.
  rewrite result_try_catch in R. rewrite trace_try_catch.
  apply in_or_app. right.
  match goal with
  | H : match result_of ?body with _ => _ end = _ |- _ =>
      destruct (result_of body) as [a | e0]; [discriminate|]
  end.
  rewrite trace_bind. simpl. now left.
Qed.

(** A failing removal of the temporary file is logged, and the error of
    the download is the one that is thrown. *)
Example cleanup_failure_is_logged :
  In (DebugLog "Error during cleanup:" unlink_failed)
     (trace_of (execute failing_cleanup_host two_items))
  /\ result_of (execute failing_cleanup_host two_items)
     = Throw (NodeOperationError
                ("Failed to download file: "
                 ++ "Access Denied - Check your permissions for this file/folder"
                 ++ " (Code: 3221225525)")
                (Some check_settings) (Some 0%nat)).
Proof.
  split; [|reflexivity]. vm_compute.
  repeat first [left; reflexivity | right].
Qed.

(** C7 fails on the connection close: a delete is refused
    (continue-on-fail disabled), and [client.close()] throws in the
    [catch] block of [execute]; what [execute] throws is then the error
    of the close, the error of the delete is lost, and the close failure
    is not logged. *)
Theorem close_failure_replaces_error :
  execute failing_close_host two_items
  = ([ GetCredentials; NewClient; Authenticate; ConnectTree;
       RemoveFile "/docs/a.txt"; DebugLog "Delete error:" access_denied;
       Debug access_denied; ClientClose ],
     Throw socket_closed)
  /\ result_of (execute failing_close_host two_items)
     <> Throw (NodeOperationError
                 ("Failed to delete file: "
                  ++ "Access Denied - Check your permissions for this file/folder"
                  ++ " (Code: 3221225525)")
                 (Some check_settings) (Some 0%nat))
  /\ ~ In (DebugLog "Error during cleanup:" socket_closed)
         (trace_of (execute failing_close_host two_items)).
Proof.
  split; [reflexivity|]. split.
  - vm_compute. discriminate.
  - vm_compute. intuition discriminate.
Qed.

(** *** [formatEntry] *)

Lemma formatEntry_type_cases (bn : string -> string)
    (jn : string -> string -> string) (entry : DirectoryEntry)
    (p : string) :
  (type entry = JStr "Directory" ->
   f_type (formatEntry bn jn entry p) = "d")
  /\ (type entry <> JStr "Directory" ->
      f_type (formatEntry bn jn entry p) = "l").
Proof.
  unfold formatEntry; cbn [f_type]. split.
  - intros ->. reflexivity.
  - intros N. destruct (type entry) as [ | | b | n | s | cls props];
      try reflexivity.
    simpl. destruct (String.eqb_spec s "Directory") as [-> | _];
      [congruence|reflexivity].
Qed.

(** C8.  The [type] field [formatEntry] gives an entry is ['d'] when the
    entry's type is ['Directory'] and ['l'] for every other type, never
    ['f']; and such are all the items a listing returns. *)
Theorem formatEntry_type_d_or_l (h : Host) (i : nat)
    (entry : DirectoryEntry) (p : string) :
  (type entry = JStr "Directory" ->
   f_type (formatEntry (basename h) (join h) entry p) = "d")
  /\ (type entry <> JStr "Directory" ->
      f_type (formatEntry (basename h) (join h) entry p) = "l")
  /\ f_type (formatEntry (basename h) (join h) entry p) <> "f"
  /\ (forall entries,
        readDirectory h i (path (params h i)) = Ok entries ->
        result_of (list_item h i [])
        = Ok (map (fun e => Listed (formatEntry (basename h) (join h) e
                                      (path (params h i)))) entries)).
Proof.
  destruct (formatEntry_type_cases (basename h) (join h) entry p)
    as [D L].
  split; [exact D|]. split; [exact L|]. split.
  - unfold formatEntry; cbn [f_type].
    destruct (strict_eq_str (type entry) "Directory"); discriminate.
  - intros entries Hr. unfold list_item. rewrite result_bind. simpl.
    rewrite Hr. reflexivity.
Qed.

Lemma formatEntry_type_d_or_l_witness :
  f_type (formatEntry (basename failing_list_host) (join failing_list_host)
            regular_file "/docs")
  = "l".
Proof.
  apply (formatEntry_type_d_or_l failing_list_host 0 regular_file "/docs").
  vm_compute. discriminate.
Defined.

End NodeFacts.

Module ReadableFacts.

(** No decimal string names a member of [Object.prototype]. *)
Lemma number_key_not_inherited (n : Z) :
  own_property Object_prototype (number_to_string n) = None.
Proof.
  assert (K : forall k v,
             In (k, v) Object_prototype -> NilZero.int_of_string k = None).
  { intros k v H. unfold Object_prototype in H. simpl in H.
    repeat (destruct H as [H | H]; [inversion H; subst; reflexivity|]).
    contradiction. }
  assert (D : NilZero.int_of_string (number_to_string n) = Some (Z.to_int n)).
  { unfold number_to_string. destruct (to_int_not_nil n) as [A B].
    now apply NilZero.isi. }
  assert (G : forall props,
             (forall k v, In (k, v) props -> NilZero.int_of_string k = None) ->
             own_property props (number_to_string n) = None).
  { induction props as [|[k v] rest IH]; intros Hk; [reflexivity|].
    simpl. destruct (String.eqb_spec k (number_to_string n)) as [E | _].
    - specialize (Hk k v (or_introl eq_refl)). rewrite E, D in Hk.
      discriminate.
    - apply IH. intros k' v' H'. apply (Hk k' v'). now right. }
  apply G, K.
Qed.

(** A number without an entry of its own has no entry at all. *)
Lemma SMB_ERROR_CODES_at_number (n : Z) :
  SMB_ERROR_CODES_at (number_to_string n)
  = match status_message n with Some s => JStr s | None => JUndefined end.
Proof.
  unfold SMB_ERROR_CODES_at, status_message.
  destruct (own_entry SMB_ERROR_CODES (number_to_string n)); [reflexivity|].
  now rewrite number_key_not_inherited.
Qed.

Lemma get_prop_truthy (error v : JsVal) (key : string) :
  get_prop error key = Some v -> truthy v = true -> truthy error = true.
Proof.
  destruct error as [ | | b | n | s | cls props]; simpl;
    try discriminate; try reflexivity;
    intros H; inversion H; subst; discriminate.
Qed.

Lemma header_status_truthy (error status : JsVal) :
  header_status error = Some status -> truthy status = true ->
  truthy error = true.
Proof.
  intros H T. destruct (header_status_split _ _ H) as [h [Hh Hs]].
  destruct error as [ | | b | n | s | cls props]; simpl in *;
    try discriminate; try reflexivity;
    inversion Hh; subst; simpl in Hs; inversion Hs; subst; discriminate.
Qed.

Lemma status_message_truthy (c : Z) (s : string) :
  status_message c = Some s ->
  truthy (JNum c) = true /\ truthy (JStr s) = true.
Proof.
  intros Hs. unfold status_message in Hs.
  destruct (own_entry_In _ _ _ Hs) as [c' Hin].
  destruct (SMB_ERROR_CODES_nonempty _ _ Hin) as [Ts _].
  split; [|exact Ts].
  simpl. apply negb_true_iff, Z.eqb_neq. intros ->.
  vm_compute in Hs. discriminate.
Qed.

(** X1.  A [header.status] with an entry in the table decides the
    result, whatever [code], [errno] and [message] hold. *)
Theorem status_takes_precedence (error : JsVal) (c : Z) (s : string) :
  header_status error = Some (JNum c) ->
  status_message c = Some s ->
  getReadableError error
  = Some (JStr (s ++ " (Code: " ++ number_to_string c ++ ")")).
Proof.
  intros Hst Hs. destruct (status_message_truthy c s Hs) as [Tc Ts].
  pose proof (header_status_truthy _ _ Hst Tc) as T.
  destruct (get_prop_defined error "code" T) as [code Hc].
  destruct (get_prop_defined error "errno" T) as [errno He].
  apply (getReadableError_hit error (JNum c) (number_to_string c) s).
  - rewrite (errorCode_of_parts _ _ _ _ Hst Hc He).
    unfold js_or. now rewrite Tc, Tc.
  - exact Tc.
  - reflexivity.
  - rewrite SMB_ERROR_CODES_at_number, Hs. exact Ts.
  - now rewrite SMB_ERROR_CODES_at_number, Hs.
Qed.

Lemma status_takes_precedence_witness :
  getReadableError
    (JObj ErrorObject
       [ ("message", JStr "timeout"); ("code", JStr "ETIMEDOUT");
         ("header", JObj PlainObject [("status", JNum 3221225506)]) ])
  = Some (JStr ("File/Path Not Found" ++ " (Code: "
                ++ number_to_string 3221225506 ++ ")")).
Proof.
  apply status_takes_precedence; reflexivity.
Defined.

(** What is asked of the table when the status misses it and the code
    is a transport code. *)
Lemma status_misses_lookup (status errno : JsVal) (code : string) :
  status_misses status ->
  In code transport_codes ->
  misses_table (js_or (js_or status (JStr code)) errno).
Proof.
  intros Miss Hin.
  assert (Tc : truthy (JStr code) = true).
  { simpl in Hin. destruct Hin as [<- | [<- | [<- | []]]]; reflexivity. }
  destruct Miss as [F | [n [-> [N0 Hn]]]]; unfold js_or.
  - rewrite F. cbv iota. rewrite Tc. cbv iota.
    right. exists code. split; [reflexivity|].
    simpl in Hin. destruct Hin as [<- | [<- | [<- | []]]]; reflexivity.
  - assert (truthy (JNum n) = true) as Tn
        by (simpl; now apply negb_true_iff, Z.eqb_neq).
    rewrite Tn. cbv iota. rewrite Tn.
    right. exists (number_to_string n). split; [reflexivity|].
    now rewrite SMB_ERROR_CODES_at_number, Hn.
Qed.

(** X2.  With no table entry for [header.status], a [code] of
    ECONNREFUSED, ETIMEDOUT or ENOTFOUND gives its fixed text, whatever
    [message] and [errno] hold. *)
Theorem transport_code_message (error status : JsVal) (code : string) :
  header_status error = Some status ->
  status_misses status ->
  get_prop error "code" = Some (JStr code) ->
  In code transport_codes ->
  getReadableError error = Some (JStr (transport_message code)).
Proof.
  intros Hst Miss Hc Hin.
  assert (Tc : truthy (JStr code) = true).
  { simpl in Hin. destruct Hin as [<- | [<- | [<- | []]]]; reflexivity. }
  pose proof (get_prop_truthy _ _ _ Hc Tc) as T.
  destruct (get_prop_defined error "errno" T) as [errno He].
  destruct (get_prop_defined error "message" T) as [message Hm].
  pose proof (errorCode_of_parts _ _ _ _ Hst Hc He) as Hec.
  rewrite (getReadableError_no_hit error _ status (JStr code) message
             T Hec (status_misses_lookup status errno code Miss Hin)
             Hst Hc Hm).
  unfold after_table.
  simpl in Hin. destruct Hin as [<- | [<- | [<- | []]]]; reflexivity.
Qed.

Lemma transport_code_message_witness :
  getReadableError
    (JObj ErrorObject
       [ ("message", JStr "connect ETIMEDOUT 10.0.0.7:445");
         ("errno", JNum (-110)); ("code", JStr "ETIMEDOUT") ])
  = Some (JStr (transport_message "ETIMEDOUT")).
Proof.
  apply (transport_code_message _ JUndefined "ETIMEDOUT").
  - reflexivity.
  - left; reflexivity.
  - reflexivity.
  - simpl; tauto.
Defined.


Lemma number_to_string_nonempty (n : Z) : number_to_string n <> "".
Proof.
  intros E.
  assert (D : NilZero.int_of_string (number_to_string n) = Some (Z.to_int n)).
  { unfold number_to_string. destruct (to_int_not_nil n) as [A B].
    now apply NilZero.isi. }
  rewrite E in D. vm_compute in D. discriminate.
Qed.

(** X3.  A [code] given as the decimal string of a listed code reaches
    the same entry as the number: property keys are strings. *)
Theorem string_code_hits_table (error status : JsVal) (c : Z)
    (s : string) :
  header_status error = Some status ->
  truthy status = false ->
  get_prop error "code" = Some (JStr (number_to_string c)) ->
  status_message c = Some s ->
  getReadableError error
  = Some (JStr (s ++ " (Code: " ++ number_to_string c ++ ")")).
Proof.
  intros Hst F Hc Hs. destruct (status_message_truthy c s Hs) as [_ Ts].
  assert (Tc : truthy (JStr (number_to_string c)) = true).
  { simpl. apply negb_true_iff, String.eqb_neq.
    apply number_to_string_nonempty. }
  pose proof (get_prop_truthy _ _ _ Hc Tc) as T.
  destruct (get_prop_defined error "errno" T) as [errno He].
  apply (getReadableError_hit error (JStr (number_to_string c))
           (number_to_string c) s).
  - rewrite (errorCode_of_parts _ _ _ _ Hst Hc He).
    unfold js_or. rewrite F. cbv iota. now rewrite Tc.
  - exact Tc.
  - reflexivity.
  - rewrite SMB_ERROR_CODES_at_number, Hs. exact Ts.
  - now rewrite SMB_ERROR_CODES_at_number, Hs.
Qed.

Lemma string_code_hits_table_witness :
  getReadableError (JObj PlainObject [("code", JStr (number_to_string 53))])
  = Some (JStr ("Network Path Not Found" ++ " (Code: "
                ++ number_to_string 53 ++ ")")).
Proof.
  apply (string_code_hits_table _ JUndefined 53); reflexivity.
Defined.

Lemma falsy_is_no_transport_code (code : JsVal) (k : string) :
  truthy code = false -> k <> "" -> strict_eq_str code k = false.
Proof.
  destruct code as [ | | b | n | s | cls props]; simpl; try reflexivity.
  intros F N. apply negb_false_iff, String.eqb_eq in F. subst s.
  apply String.eqb_neq. congruence.
Qed.

(** X4.  An error without a truthy [header.status], [code] or [errno]
    is described by its [message], returned as it is. *)
Theorem message_is_returned (error status code errno message : JsVal) :
  header_status error = Some status ->
  get_prop error "code" = Some code ->
  get_prop error "errno" = Some errno ->
  get_prop error "message" = Some message ->
  truthy status = false ->
  truthy code = false ->
  truthy errno = false ->
  truthy message = true ->
  getReadableError error = Some message.
Proof.
  intros Hst Hc He Hm Fs Fc Fe Tm.
  pose proof (get_prop_truthy _ _ _ Hm Tm) as T.
  pose proof (errorCode_of_parts _ _ _ _ Hst Hc He) as Hv.
  rewrite (getReadableError_no_hit error _ status code message T Hv);
    try assumption.
  - unfold after_table.
    rewrite !(falsy_is_no_transport_code code) by (exact Fc || discriminate).
    rewrite Tm. reflexivity.
  - left. unfold js_or. rewrite Fs. cbv iota. rewrite Fc. cbv iota.
    now rewrite Fe.
Qed.

Lemma message_is_returned_witness :
  getReadableError
    (JObj ErrorObject [("message", JStr "Request timed out")])
  = Some (JStr "Request timed out").
Proof.
  apply (message_is_returned _ JUndefined JUndefined JUndefined);
    reflexivity.
Defined.

(** X5.  A [header.status] without an entry, an integer below 2^53 in
    absolute value, no transport code: the [message] when there is one,
    and the status, in decimal, in a fixed sentence when there is
    none. *)
Theorem unlisted_status_fallback (error code message : JsVal) (n : Z) :
  header_status error = Some (JNum n) ->
  safe_integer n = true ->
  n <> 0%Z ->
  status_message n = None ->
  get_prop error "code" = Some code ->
  (forall k, In k transport_codes -> strict_eq_str code k = false) ->
  get_prop error "message" = Some message ->
  getReadableError error
  = Some (if truthy message then message
          else JStr ("SMB server returned an error (Code: "
                     ++ number_to_string n ++ ")")).
Proof.
  intros Hst _ N0 Hn Hc Hk Hm.
  assert (Tn : truthy (JNum n) = true)
    by (simpl; now apply negb_true_iff, Z.eqb_neq).
  pose proof (header_status_truthy _ _ Hst Tn) as T.
  destruct (get_prop_defined error "errno" T) as [errno He].
  pose proof (errorCode_of_parts _ _ _ _ Hst Hc He) as Hv.
  rewrite (getReadableError_no_hit error _ (JNum n) code message T Hv);
    try assumption.
  - unfold after_table.
    rewrite !Hk by (simpl; tauto). rewrite Tn, andb_true_r.
    destruct (truthy message); reflexivity.
  - right. unfold js_or. rewrite Tn. cbv iota. rewrite Tn.
    exists (number_to_string n). split; [reflexivity|].
    now rewrite SMB_ERROR_CODES_at_number, Hn.
Qed.

Lemma unlisted_status_fallback_witness :
  getReadableError
    (JObj PlainObject
       [("header", JObj PlainObject [("status", JNum 3221225473)])])
  = Some (JStr ("SMB server returned an error (Code: "
                ++ number_to_string 3221225473 ++ ")")).
Proof.
  apply (unlisted_status_fallback _ JUndefined JUndefined 3221225473);
    try reflexivity.
  discriminate.
Defined.

End ReadableFacts.

Module BatchFacts.
Import Smb2 Runs Batch NodeFacts.

Lemma connect_connected (h : Host) :
  connected h -> connect h = (connect_events, Ok tt).
Proof.
  intros [Cr [Au Tr]]. unfold connect, bind, call, emit_event.
  rewrite Cr, Au, Tr. reflexivity.
Qed.

(** [execute] once the connection stands: the loop, the close, and the
    [catch] block with its own close. *)
Lemma execute_connected (h : Host) (items : list Item) :
  connected h ->
  execute h items
  = match process_items h 0 items [] with
    | (t, Ok r) =>
        match close_after_loop h with
        | Ok _ => ((connect_events ++ t ++ [ClientClose])%list, Ok r)
        | Throw e =>
            ((connect_events ++ t ++ [ClientClose; ClientClose])%list,
             match close_in_catch h with
             | Ok _ => Throw e
             | Throw e' => Throw e'
             end)
        end
    | (t, Throw e) =>
        ((connect_events ++ t ++ [ClientClose])%list,
         match close_in_catch h with
         | Ok _ => Throw e
         | Throw e' => Throw e'
         end)
    end.
Proof.
  intros C. pose proof (connect_connected h C) as Hc.
  destruct C as [Cr _].
  unfold execute, client_defined. rewrite Hc, Cr.
  unfold try_catch, bind, call, ret, throw. cbn [app].
  destruct (process_items h 0 items []) as [t [r | e]].
  - destruct (close_after_loop h) as [u | e].
    + cbn. rewrite ?app_nil_r. reflexivity.
    + destruct (close_in_catch h) as [u | e']; cbn;
        rewrite <- ?app_assoc; reflexivity.
  - destruct (close_in_catch h) as [u | e']; cbn; reflexivity.
Qed.

Lemma process_item_other (h : Host) (i : nat) (item : Item)
    (r : list ReturnItem) :
  ~ In (operation h) operations ->
  process_item h i item r = ([], Ok r).
Proof.
  intros N. unfold process_item, operations in *. simpl in N.
  repeat match goal with
         | |- context [operation h =? ?k] =>
             destruct (String.eqb_spec (operation h) k) as [E | _];
             [exfalso; apply N; rewrite E; tauto|]
         end.
  reflexivity.
Qed.

Lemma process_items_other (h : Host) (items : list Item) :
  ~ In (operation h) operations ->
  forall i r, process_items h i items r = ([], Ok r).
Proof.
  intros N. induction items as [|item rest IH]; intros i r; simpl.
  - reflexivity.
  - rewrite (process_item_other h i item r N). unfold bind.
    now rewrite IH.
Qed.

(** X6.  An operation name outside the five gives an empty result: the
    node connects, makes no call for any item, closes, and returns no
    item, whatever the input was. *)
Theorem unknown_operation_returns_nothing (h : Host) (items : list Item) :
  connected h ->
  close_after_loop h = Ok tt ->
  ~ In (operation h) operations ->
  execute h items = ((connect_events ++ [ClientClose])%list, Ok []).
Proof.
  intros C Cl N. rewrite (execute_connected h items C).
  rewrite (process_items_other h items N), Cl. reflexivity.
Qed.

Lemma unknown_operation_returns_nothing_witness :
  execute (host "create" false (text_upload "x" None)
             (Ok []) (Ok tt) (Ok tt) (Ok tt) (Ok tt)) two_items
  = ((connect_events ++ [ClientClose])%list, Ok []).
Proof.
  apply unknown_operation_returns_nothing.
  - repeat split.
  - reflexivity.
  - unfold operations. simpl. intuition discriminate.
Defined.

(** X9.  When every item went through and the close after the loop
    throws, the results are lost: the [catch] block closes a second time
    and [execute] throws the error of the first close. *)
Theorem failing_final_close_loses_results (h : Host) (items : list Item)
    (t : list Event) (r : list ReturnItem) (e : JsVal) :
  connected h ->
  process_items h 0 items [] = (t, Ok r) ->
  close_after_loop h = Throw e ->
  close_in_catch h = Ok tt ->
  execute h items
  = ((connect_events ++ t ++ [ClientClose; ClientClose])%list, Throw e).
Proof.
  intros C P Cl Cc. rewrite (execute_connected h items C), P, Cl, Cc.
  reflexivity.
Qed.


Lemma failing_final_close_loses_results_witness :
  execute (with_connection (quiet_delete_host false)
             (Ok tt) (Ok tt) (Ok tt) (Throw socket_closed))
          two_items
  = ((connect_events
      ++ [RemoveFile "/docs/a.txt"; RemoveFile "/docs/a.txt"]
      ++ [ClientClose; ClientClose])%list,
     Throw socket_closed).
Proof.
  apply (failing_final_close_loses_results _ _ _
           [Passed (input_item 0); Passed (input_item 1)]).
  - repeat split.
  - reflexivity.
  - reflexivity.
  - reflexivity.
Defined.

(** *** A connection that fails *)

Lemma connect_trace_no_close (h : Host) :
  ~ In ClientClose (trace_of (connect h))
  /\ tree_calls (trace_of (connect h)) = [].
Proof.
  unfold connect, bind, call, emit_event.
  destruct (getCredentials h) as [u | e]; cbn;
    [|split; [intuition discriminate|reflexivity]].
  destruct (authenticate h) as [u' | e]; cbn;
    [|split; [intuition discriminate|reflexivity]].
  destruct (connectTree h) as [u'' | e]; cbn;
    split; (intuition discriminate) || reflexivity.
Qed.

(** The events of the inner [catch] block. *)
Lemma connect_failure_events_quiet (e : JsVal) :
  ~ In ClientClose (connect_failure_events e)
  /\ tree_calls (connect_failure_events e) = [].
Proof.
  unfold connect_failure_events, failure_events.
  destruct (truthy e); split; simpl; intuition discriminate.
Qed.



(** X8.  A failed connection without continue-on-fail: [execute] logs
    the error and throws, no input item is processed, and the client is
    closed exactly when it had been created, that is when the
    credentials had been read. *)
Theorem connect_failure_throws (h : Host) (items : list Item)
    (e : JsVal) :
  result_of (connect h) = Throw e ->
  continueOnFail h = false ->
  close_in_catch h = Ok tt ->
  trace_of (execute h items)
  = (trace_of (connect h)
     ++ connect_failure_events e
     ++ (if client_defined h then [ClientClose] else []))%list
  /\ (exists err, result_of (execute h items) = Throw err)
  /\ tree_calls (trace_of (execute h items)) = [].
Proof.
  intros Hc K Cl.
  assert (Run : trace_of (execute h items)
    = (trace_of (connect h)
       ++ connect_failure_events e
       ++ (if client_defined h then [ClientClose] else []))%list
    /\ exists err, result_of (execute h items) = Throw err).
  { unfold execute, connect_failure_events, failure_events.
    destruct (connect h) as [tc [u | e0]]; simpl in Hc; [discriminate|].
    inversion Hc; subst e0.
    cbn [try_catch bind throw ret fst snd trace_of].
    unfold on_connect_failure. rewrite readable_run.
    unfold try_catch, bind, emit_event, ret, throw, call. rewrite K, Cl.
    destruct (PerItem.readable_text e), (client_defined h),
      (truthy e); cbn;
      rewrite <- ?app_assoc, ?app_nil_r;
      (split; [reflexivity|eexists; reflexivity]). }
  destruct Run as [Rt Rr]. split; [exact Rt|]. split; [exact Rr|].
  rewrite Rt, !tree_calls_app.
  destruct (connect_trace_no_close h) as [_ NT].
  destruct (connect_failure_events_quiet e) as [_ ET].
  rewrite NT, ET. now destruct (client_defined h).
Qed.

Lemma connect_failure_throws_witness :
  trace_of (execute (with_connection (quiet_delete_host false)
                       (Ok tt) (Throw access_denied) (Ok tt) (Ok tt))
                    two_items)
  = [ GetCredentials; NewClient; Authenticate;
      DebugLog "Connect error: " access_denied; Debug access_denied;
      ClientClose ].
Proof.
  apply (connect_failure_throws
           (with_connection (quiet_delete_host false)
              (Ok tt) (Throw access_denied) (Ok tt) (Ok tt))
           two_items access_denied); reflexivity.
Defined.

End BatchFacts.

Module PerItemFacts.
Import Smb2 Runs Batch PerItem NodeFacts BatchFacts.

(** *** delete *)

Lemma delete_item_run (h : Host) (i : nat) (item : Item)
    (r : list ReturnItem) :
  delete_item h i item r
  = match delete_answer h i with
    | Ok _ => ([delete_call h i], Ok (push r item))
    | Throw e =>
        (delete_call h i :: failure_events "Delete error:" e,
         result_of (on_failure h "Delete error:" "Failed to delete file: "
                      i item r e))
    end.
Proof.
  unfold delete_item, delete_answer, delete_call.
  assert (H : forall ev (a : outcome unit),
    try_catch (call ev a ;;; ret (push r item))
      (on_failure h "Delete error:" "Failed to delete file: " i item r)
    = match a with
      | Ok _ => ([ev], Ok (push r item))
      | Throw e =>
          (ev :: failure_events "Delete error:" e,
           result_of (on_failure h "Delete error:"
                        "Failed to delete file: " i item r e))
      end).
  { intros ev [u | e]; [reflexivity|].
    pose proof (on_failure_trace h "Delete error:"
                  "Failed to delete file: " i item r e) as T.
    unfold try_catch, bind, call.
    destruct (on_failure h "Delete error:" "Failed to delete file: "
                i item r e) as [t res].
    simpl in T. subst t. reflexivity. }
  destruct (folder (params h i)) as [[|]|]; apply H.
Qed.

Lemma process_items_delete_abort (h : Host) (e : JsVal) :
  operation h = "delete" ->
  continueOnFail h = false ->
  forall k items i r,
    (k < length items)%nat ->
    (forall j, (j < k)%nat -> delete_answer h (i + j) = Ok tt) ->
    delete_answer h (i + k) = Throw e ->
    trace_of (process_items h i items r)
    = (map (delete_call h) (seq i (S k))
       ++ failure_events "Delete error:" e)%list
    /\ exists err, result_of (process_items h i items r) = Throw err.
Proof.
  intros Op K. induction k as [|k IH]; intros items i r Hl Hok Hf;
    (destruct items as [|item rest]; [simpl in Hl; lia|]);
    cbn [process_items]; unfold process_item; rewrite Op;
    cbn [String.eqb Ascii.eqb Bool.eqb]; rewrite delete_item_run.
  - rewrite Nat.add_0_r in Hf. rewrite Hf, on_failure_result, K.
    destruct (readable_text e); (split; [reflexivity|eexists; reflexivity]).
  - assert (A0 : delete_answer h i = Ok tt)
      by (rewrite <- (Nat.add_0_r i); apply Hok; lia).
    rewrite A0.
    destruct (IH rest (S i) (push r item)) as [Tr [err Rr]].
    + simpl in Hl. lia.
    + intros j Hj. rewrite Nat.add_succ_comm. apply Hok. lia.
    + rewrite Nat.add_succ_comm. exact Hf.
    + rewrite trace_bind, result_bind.
      cbn [trace_of result_of fst snd]. rewrite Tr, Rr.
      split; [reflexivity|now exists err].
Qed.

(** X13.  A delete batch without continue-on-fail stops at the first
    removal that fails: the removals before it have been made and stay
    made, the failure is logged, no later item is touched, the client is
    closed, and [execute] throws. *)
Theorem delete_batch_stops_at_first_failure (h : Host)
    (items : list Item) (k : nat) (e : JsVal) :
  connected h ->
  close_in_catch h = Ok tt ->
  operation h = "delete" ->
  continueOnFail h = false ->
  (k < length items)%nat ->
  (forall j, (j < k)%nat -> delete_answer h j = Ok tt) ->
  delete_answer h k = Throw e ->
  trace_of (execute h items)
  = (connect_events
     ++ (map (delete_call h) (seq 0 (S k))
         ++ failure_events "Delete error:" e)
     ++ [ClientClose])%list
  /\ exists err, result_of (execute h items) = Throw err.
Proof.
  intros C Cl Op K Hl Hok Hf. rewrite (execute_connected h items C).
  destruct (process_items_delete_abort h e Op K k items 0 [] Hl Hok Hf)
    as [Tr [err Rr]].
  destruct (process_items h 0 items []) as [t res].
  cbn [trace_of result_of fst snd] in Tr, Rr. subst t res. rewrite Cl.
  split; [reflexivity|now exists err].
Qed.

Lemma delete_batch_stops_at_first_failure_witness :
  trace_of (execute failing_close_free_host two_items)
  = (connect_events
     ++ (map (delete_call failing_close_free_host) (seq 0 1)
         ++ failure_events "Delete error:" access_denied)
     ++ [ClientClose])%list.
Proof.
  apply (delete_batch_stops_at_first_failure failing_close_free_host
           two_items 0 access_denied); try reflexivity.
  - repeat split.
  - simpl. lia.
  - intros j Hj. lia.
Defined.

End PerItemFacts.

Module CallsFacts.
Import Smb2 Runs Batch PerItem Calls NodeFacts BatchFacts PerItemFacts.

(** *** list *)

Lemma process_items_list (h : Host) (entries : nat -> list DirectoryEntry) :
  operation h = "list" ->
  forall items i r,
    (forall j, (j < length items)%nat ->
               readDirectory h (i + j) (path (params h (i + j)))
               = Ok (entries (i + j)%nat)) ->
    process_items h i items r
    = (map (fun j => ReadDirectory (path (params h j)))
           (seq i (length items)),
       Ok (r ++ flat_map (listed h entries) (seq i (length items)))%list).
Proof.
  intros Op. induction items as [|item rest IH]; intros i r Hr.
  - simpl. now rewrite app_nil_r.
  - cbn [process_items length seq map flat_map].
    unfold process_item. rewrite Op. cbn [String.eqb Ascii.eqb Bool.eqb].
    unfold list_item, bind, call, ret.
    pose proof (Hr 0%nat ltac:(simpl; lia)) as H0.
    rewrite Nat.add_0_r in H0. rewrite H0.
    rewrite (IH (S i)).
    + unfold listed at 2. cbn [app]. f_equal. f_equal.
      now rewrite <- app_assoc.
    + intros j Hj. rewrite Nat.add_succ_comm. apply Hr. simpl. lia.
Qed.

(** X14.  A list batch whose listings all succeed returns the formatted
    entries of item 0, then those of item 1, and so on, each in the
    order [readDirectory] gave them; the input items themselves are not
    part of the result. *)
Theorem list_batch_concatenates (h : Host) (items : list Item)
    (entries : nat -> list DirectoryEntry) :
  connected h ->
  close_after_loop h = Ok tt ->
  operation h = "list" ->
  (forall j, (j < length items)%nat ->
             readDirectory h j (path (params h j)) = Ok (entries j)) ->
  execute h items
  = ((connect_events
      ++ map (fun j => ReadDirectory (path (params h j)))
             (seq 0 (length items))
      ++ [ClientClose])%list,
     Ok (flat_map (listed h entries) (seq 0 (length items)))).
Proof.
  intros C Cl Op Hr. rewrite (execute_connected h items C).
  rewrite (process_items_list h entries Op items 0 [] Hr), Cl.
  reflexivity.
Qed.

Lemma list_batch_concatenates_witness :
  execute (host "list" false (text_upload "x" None)
             (Ok [regular_file]) (Ok tt) (Ok tt) (Ok tt) (Ok tt))
          two_items
  = ((connect_events
      ++ map (fun j => ReadDirectory "/docs/a.txt") (seq 0 2)
      ++ [ClientClose])%list,
     Ok (flat_map
           (listed (host "list" false (text_upload "x" None)
                      (Ok [regular_file]) (Ok tt) (Ok tt) (Ok tt) (Ok tt))
                   (fun j => if Nat.eqb j 0 then [regular_file] else []))
           (seq 0 2))).
Proof.
  apply (list_batch_concatenates
           (host "list" false (text_upload "x" None)
              (Ok [regular_file]) (Ok tt) (Ok tt) (Ok tt) (Ok tt))
           two_items
           (fun j => if Nat.eqb j 0 then [regular_file] else []));
    try reflexivity.
  - repeat split.
  - intros [|[|j]] Hj; reflexivity.
Defined.


(** *** Calls stay within the operation *)

Lemma within_app (op : string) (a b : list Event) :
  calls_within op a -> calls_within op b -> calls_within op (a ++ b).
Proof. intros A B. apply Forall_app. now split. Qed.

Lemma within_nil (op : string) : calls_within op [].
Proof. constructor. Qed.

Lemma within_bind {A B : Type} (op : string) (m : N A) (f : A -> N B) :
  calls_within op (trace_of m) ->
  (forall a, calls_within op (trace_of (f a))) ->
  calls_within op (trace_of (bind m f)).
Proof.
  intros Hm Hf. rewrite trace_bind. apply within_app; [exact Hm|].
  destruct (result_of m); [apply Hf|apply within_nil].
Qed.

Lemma within_try_catch {A : Type} (op : string) (m : N A)
    (handler : JsVal -> N A) :
  calls_within op (trace_of m) ->
  (forall e, calls_within op (trace_of (handler e))) ->
  calls_within op (trace_of (try_catch m handler)).
Proof.
  intros Hm Hh. rewrite trace_try_catch. apply within_app; [exact Hm|].
  destruct (result_of m); [apply within_nil|apply Hh].
Qed.

Lemma trace_try_finally {A : Type} (m : N A) (fin : N unit) :
  trace_of (try_finally m fin) = (trace_of m ++ trace_of fin)%list.
Proof. destruct m as [t r], fin as [t' [u | e]]; reflexivity. Qed.

Lemma within_call {A : Type} (op : string) (ev : Event) (a : outcome A) :
  (is_tree_call ev = true -> allowed_call op ev = true) ->
  calls_within op (trace_of (call ev a)).
Proof. intros H. constructor; [exact H|constructor]. Qed.

Lemma within_ret {A : Type} (op : string) (a : A) :
  calls_within op (trace_of (ret (E := Event) a)).
Proof. constructor. Qed.

Lemma within_throw {A : Type} (op : string) (e : JsVal) :
  calls_within op (trace_of (throw (E := Event) (A := A) e)).
Proof. constructor. Qed.

Lemma within_on_failure (op : string) (h : Host) (label what : string)
    (i : nat) (item : Item) (r : list ReturnItem) (e : JsVal) :
  calls_within op (trace_of (on_failure h label what i item r e)).
Proof.
  rewrite on_failure_trace. constructor; [discriminate|].
  destruct (truthy e); [constructor; [discriminate|]|]; constructor.
Qed.

Lemma within_readable (op : string) (e : JsVal) :
  calls_within op (trace_of (readable e)).
Proof.
  rewrite readable_trace.
  destruct (truthy e); [constructor; [discriminate|]|]; constructor.
Qed.

Ltac within :=
  repeat first
    [ apply within_on_failure
    | apply within_ret
    | apply within_throw
    | apply within_nil
    | apply within_call; first [discriminate | intros _; reflexivity]
    | apply within_try_catch; [|intros ?]
    | apply within_bind; [|intros ?] ].

Lemma process_item_within (h : Host) (i : nat) (item : Item)
    (r : list ReturnItem) :
  calls_within (operation h) (trace_of (process_item h i item r)).
Proof.
  unfold process_item.
  destruct (String.eqb_spec (operation h) "list") as [-> | _].
  { unfold list_item. within. }
  destruct (String.eqb_spec (operation h) "download") as [-> | _].
  { unfold download_item. destruct (tmpFile h i) as [f | e].
    - rewrite trace_try_finally. apply within_app.
      + within. unfold download_body. destruct f as [f|]; [|within].
        destruct (tmp_path f =? ""); within.
      + unfold download_cleanup. destruct f as [f|]; [|within].
        destruct (has_cleanup f); within.
    - within. }
  destruct (String.eqb_spec (operation h) "upload") as [-> | _].
  { unfold upload_item. within.
    - unfold upload_content. destruct (binaryData (params h i)).
      + within. match goal with a : option _ |- _ => destruct a end.
        * within.
        * destruct (continueOnFail h); within.
      + destruct (fileContent (params h i) =? "");
          [destruct (continueOnFail h)|]; within.
    - match goal with a : (_ + _)%type |- _ => destruct a end; [|within].
      unfold upload_write. within.
      destruct (replace (params h i)) as [[|]|]; within.
      match goal with a : bool |- _ => destruct a end; within. }
  destruct (String.eqb_spec (operation h) "delete") as [-> | _].
  { unfold delete_item. within.
    destruct (folder (params h i)) as [[|]|]; within. }
  destruct (String.eqb_spec (operation h) "rename") as [-> | _].
  { unfold rename_item. within. }
  within.
Qed.

Lemma process_items_within (h : Host) (items : list Item) :
  forall i r,
    calls_within (operation h) (trace_of (process_items h i items r)).
Proof.
  induction items as [|item rest IH]; intros i r; simpl.
  - apply within_nil.
  - apply within_bind; [apply process_item_within|]. intros a. apply IH.
Qed.

Lemma execute_within (h : Host) (items : list Item) :
  calls_within (operation h) (trace_of (execute h items)).
Proof.
  unfold execute. apply within_try_catch.
  - apply within_bind.
    + apply within_try_catch.
      * unfold connect. within.
      * intros e. unfold on_connect_failure. apply within_bind; [within|].
        intros _. apply within_bind; [apply within_readable|].
        intros text. destruct (continueOnFail h); within.
    + intros [early|]; [within|].
      apply within_bind; [apply process_items_within|]. intros a. within.
  - intros e. destruct (client_defined h); within.
Qed.

(** X15.  Whatever the server answers, a run of [execute] only makes
    the tree calls of its operation: a list only reads directories, a
    download only opens read streams, an upload only calls [exists],
    [removeFile] and [createFile], a delete only [removeFile] and
    [removeDirectory], a rename only [renameFile], and any other
    operation name makes no tree call. *)
Theorem execute_calls_only_its_operation (h : Host) (items : list Item)
    (ev : Event) :
  In ev (trace_of (execute h items)) ->
  is_tree_call ev = true ->
  allowed_call (operation h) ev = true.
Proof.
  intros Hin. pose proof (execute_within h items) as W.
  unfold calls_within in W. rewrite Forall_forall in W. now apply W.
Qed.

Lemma execute_calls_only_its_operation_witness :
  allowed_call (operation failing_delete_host) (RemoveFile "/docs/a.txt")
  = true.
Proof.
  apply (execute_calls_only_its_operation failing_delete_host two_items).
  - vm_compute. tauto.
  - reflexivity.
Defined.


(** *** download *)



Lemma body_has_no_cleanup (h : Host) (i : nat) (item : Item)
    (r : list ReturnItem) (f : option TmpFile) :
  filter is_cleanup
    (trace_of
       (try_catch
          (call TmpFileCreate (Ok tt) ;;; download_body h i item r f)
          (on_failure h "Download error:" "Failed to download file: "
             i item r)))
  = [].
Proof.
  rewrite trace_try_catch, filter_app, trace_bind, filter_app.
  assert (B : filter is_cleanup (trace_of (download_body h i item r f)) = []).
  { unfold download_body. destruct f as [f|]; [|reflexivity].
    destruct (tmp_path f =? ""); [reflexivity|].
    unfold bind, call, ret.
    destruct (createFileReadStream h i _); [|reflexivity].
    destruct (pipeline h i); [|reflexivity].
    destruct (copyBinaryFile h i); reflexivity. }
  simpl. rewrite B.
  match goal with
  | |- context [match ?o with Ok _ => [] | Throw e => _ end] => destruct o
  end; [reflexivity|].
  rewrite on_failure_trace. now destruct (truthy e).
Qed.





(** *** upload of a buffer *)

(** X18.  An upload from a binary property writes the buffer it was
    given, whatever its length (an empty buffer makes an empty file,
    unlike an empty text): without the overwrite option, the calls are
    the read of the buffer and [createFile], and the item is returned
    unchanged. *)
Theorem binary_upload_writes_buffer (h : Host) (i : nat) (item : Item)
    (r : list ReturnItem) (b : list Byte.byte) :
  binaryData (params h i) = true ->
  getBinaryDataBuffer h i (binaryPropertyName (params h i)) = Ok (Some b) ->
  replace (params h i) <> Some true ->
  createFile h i (path (params h i)) (BufferContent b) = Ok tt ->
  upload_item h i item r
  = ([ GetBinaryDataBuffer i (binaryPropertyName (params h i));
       CreateFile (path (params h i)) (BufferContent b) ],
     Ok (push r item)).
Proof.
  intros Hb Hg Hr Hc.
  unfold upload_item, upload_content, upload_write. rewrite Hb.
  unfold try_catch, bind, call, ret. rewrite Hg.
  destruct (replace (params h i)) as [[|]|]; [congruence| |];
    cbn; rewrite Hc; reflexivity.
Qed.

Lemma binary_upload_writes_buffer_witness :
  upload_item (host "upload" false
                 {| path := "/docs/empty.bin"; binaryPropertyName := "data";
                    binaryData := true; fileContent := "";
                    replace := None; folder := None;
                    oldPath := ""; newPath := "" |}
                 (Ok []) (Ok tt) (Ok tt) (Ok tt) (Ok tt))
    0 (input_item 0) []
  = ([ GetBinaryDataBuffer 0 "data";
       CreateFile "/docs/empty.bin" (BufferContent []) ],
     Ok (push [] (input_item 0))).
Proof.
  apply binary_upload_writes_buffer; try reflexivity. discriminate.
Defined.

End CallsFacts.

Module HelpersFacts.
Import Helpers.

Lemma rethrow_run (error : JsVal) :
  rethrow_as_connect_failure error
  = ([DebugError "Connect error: " error],
     Throw match PerItem.readable_text error with
           | None => conversion_error
           | Some readableError =>
               Smb2.NodeApiError error
                 ("Failed to connect to SMB server: " ++ readableError)
           end).
Proof.
  unfold rethrow_as_connect_failure, bind, emit_event, throw.
  destruct (PerItem.readable_text error); reflexivity.
Qed.

(** X19.  When a step of [connectToSmbServer] fails, the steps after it
    are not made: after failing credentials no client is created and no
    logon is tried, after a failing logon no tree is connected.  The
    failure is logged, [connectToSmbServer] throws, and the client,
    created or not, is not closed. *)
Theorem connectToSmbServer_failure (srv : Server) (e : JsVal) :
  first_failure srv = Some e ->
  (exists err, result_of (connectToSmbServer srv) = Throw err)
  /\ filter is_close (trace_of (connectToSmbServer srv)) = []
  /\ (getCredentials srv = Throw e ->
      trace_of (connectToSmbServer srv)
      = [GetCredentials; DebugError "Connect error: " e])
  /\ (forall c,
        getCredentials srv = Ok c ->
        authenticate srv = Throw e ->
        trace_of (connectToSmbServer srv)
        = (firstn 5 (connect_steps c)
           ++ [DebugError "Connect error: " e])%list)
  /\ (forall c,
        getCredentials srv = Ok c ->
        authenticate srv = Ok tt ->
        connectTree srv = Throw e ->
        trace_of (connectToSmbServer srv)
        = (connect_steps c ++ [DebugError "Connect error: " e])%list).
Proof.
  unfold first_failure, connectToSmbServer. intros F.
  unfold try_catch, bind, call, emit_event.
  destruct (getCredentials srv) as [c | e0].
  - destruct (authenticate srv) as [[] | e1].
    + destruct (connectTree srv) as [u' | e2]; [discriminate|].
      inversion F; subst. rewrite rethrow_run. cbn.
      split; [eexists; reflexivity|]. split; [reflexivity|].
      split; [discriminate|]. split; [discriminate|].
      intros c' H _ _. inversion H; subst. reflexivity.
    + inversion F; subst. rewrite rethrow_run. cbn.
      split; [eexists; reflexivity|]. split; [reflexivity|].
      split; [discriminate|]. split; [|discriminate].
      intros c' H _. inversion H; subst. reflexivity.
  - inversion F; subst. rewrite rethrow_run. cbn.
    split; [eexists; reflexivity|]. split; [reflexivity|].
    split; [reflexivity|]. split; discriminate.
Qed.

Lemma connectToSmbServer_failure_witness :
  trace_of (connectToSmbServer refusing_logon)
  = (firstn 5 (connect_steps sample_credentials)
     ++ [DebugError "Connect error: "
           (JObj ErrorObject
              [ ("message", JStr "STATUS_LOGON_FAILURE");
                ("header",
                  JObj PlainObject [("status", JNum 3221225581)]) ])])%list.
Proof.
  apply (connectToSmbServer_failure refusing_logon
           (JObj ErrorObject
              [ ("message", JStr "STATUS_LOGON_FAILURE");
                ("header",
                  JObj PlainObject [("status", JNum 3221225581)]) ]));
    reflexivity.
Defined.


Lemma connectToSmbServer_connected (srv : Server) (c : Smb2Credentials) :
  getCredentials srv = Ok c ->
  authenticate srv = Ok tt ->
  connectTree srv = Ok tt ->
  connectToSmbServer srv = (connect_steps c, Ok tt).
Proof.
  intros Hc Ha Ht. unfold connectToSmbServer, try_catch, bind, call,
    emit_event.
  rewrite Hc, Ha, Ht. reflexivity.
Qed.

(** X20.  Whenever the credentials are read, [connectToSmbServer] hands
    the password in clear to the debug logger, before it authenticates
    and whether or not the connection succeeds. *)
Theorem connectToSmbServer_logs_password (srv : Server)
    (c : Smb2Credentials) :
  getCredentials srv = Ok c ->
  exists before after,
    trace_of (connectToSmbServer srv)
    = (before
       ++ DebugFormat url_format
            [ JStr (username c); JStr (password c); JStr (host c);
              JStr (share c) ]
          :: Authenticate (domain c) (username c) (password c)
          :: after)%list.
Proof.
  intros Hc. unfold connectToSmbServer, try_catch, bind, call, emit_event.
  rewrite Hc.
  exists [ GetCredentials;
           NewClient (host c) (port c) (connectTimeout c) (requestTimeout c);
           DebugFormat connecting_format
             [ JStr (share c); JStr (host c); JStr (domain c);
               JStr (username c); JNum (connectTimeout c);
               JNum (requestTimeout c) ] ].
  destruct (authenticate srv) as [u | e].
  - destruct (connectTree srv) as [u' | e].
    + eexists. reflexivity.
    + rewrite rethrow_run. eexists. reflexivity.
  - rewrite rethrow_run. eexists. reflexivity.
Qed.

Lemma connectToSmbServer_logs_password_witness :
  exists before after,
    trace_of (connectToSmbServer refusing_logon)
    = (before
       ++ DebugFormat url_format
            [ JStr "alice"; JStr "s3cret"; JStr "nas.local"; JStr "public" ]
          :: Authenticate "WORKGROUP" "alice" "s3cret"
          :: after)%list.
Proof.
  apply (connectToSmbServer_logs_password refusing_logon sample_credentials).
  reflexivity.
Defined.

(** *** The trigger *)

(** X21.  When the connection stands and [watchDirectory] is refused,
    [trigger] logs the refusal as a connection error and throws,
    returns no [closeFunction], and leaves the connected client open:
    no close is made.  The watch request is made on [folderToWatch]
    whatever [triggerOn] and [event] are. *)
Theorem trigger_watch_refused (triggerOn event : string)
    (recursive : bool) (folderToWatch : string) (srv : Server)
    (c : Smb2Credentials) (e : JsVal) :
  getCredentials srv = Ok c ->
  authenticate srv = Ok tt ->
  connectTree srv = Ok tt ->
  watchDirectory srv = Throw e ->
  trace_of (trigger triggerOn event recursive folderToWatch srv)
  = (connect_steps c
     ++ [ WatchDirectory folderToWatch recursive;
          DebugError "Connect error: " e ])%list
  /\ (exists err,
        result_of (trigger triggerOn event recursive folderToWatch srv)
        = Throw err)
  /\ filter is_close
       (trace_of (trigger triggerOn event recursive folderToWatch srv))
     = [].
Proof.
  intros Hc Ha Ht Hw.
  assert (Run : trigger triggerOn event recursive folderToWatch srv
    = ((connect_steps c
        ++ [ WatchDirectory folderToWatch recursive;
             DebugError "Connect error: " e ])%list,
       Throw match PerItem.readable_text e with
             | None => conversion_error
             | Some readableError =>
                 Smb2.NodeApiError e
                   ("Failed to connect to SMB server: " ++ readableError)
             end)).
  { unfold trigger. rewrite (connectToSmbServer_connected srv c Hc Ha Ht).
    unfold try_catch, bind, call. rewrite Hw, rethrow_run.
    destruct ((triggerOn =? "specificFolder")
              && negb (event =? "watchFolderUpdated")); reflexivity. }
  rewrite Run. split; [reflexivity|]. split; [eexists; reflexivity|].
  reflexivity.
Qed.

Lemma trigger_watch_refused_witness :
  trace_of (trigger "specificFolder" "fileCreated" false "/watched"
              (watching (Throw Runs.access_denied) (Ok tt)))
  = (connect_steps sample_credentials
     ++ [ WatchDirectory "/watched" false;
          DebugError "Connect error: " Runs.access_denied ])%list.
Proof.
  apply (trigger_watch_refused _ _ _ _ _ sample_credentials); reflexivity.
Defined.

(** X22.  A trigger that was armed and is then closed: the watch is
    requested once on [folderToWatch], then stopped, then the client is
    closed, once; when stopping the watch throws, the client is not
    closed and the error of the stop is the result. *)
Theorem trigger_then_close (triggerOn event : string) (recursive : bool)
    (folderToWatch : string) (srv : Server) (c : Smb2Credentials) :
  getCredentials srv = Ok c ->
  authenticate srv = Ok tt ->
  connectTree srv = Ok tt ->
  watchDirectory srv = Ok tt ->
  trigger triggerOn event recursive folderToWatch srv ;;; closeFunction srv
  = match stopFunction srv with
    | Ok _ =>
        ((trace_of (connectToSmbServer srv)
          ++ [ WatchDirectory folderToWatch recursive;
               StopWatching; ClientClose ])%list,
         close srv)
    | Throw e =>
        ((trace_of (connectToSmbServer srv)
          ++ [WatchDirectory folderToWatch recursive; StopWatching])%list,
         Throw e)
    end.
Proof.
  intros Hc Ha Ht Hw.
  unfold trigger. rewrite (connectToSmbServer_connected srv c Hc Ha Ht).
  unfold closeFunction, try_catch, bind, call. rewrite Hw.
  destruct ((triggerOn =? "specificFolder")
            && negb (event =? "watchFolderUpdated"));
    destruct (stopFunction srv) as [u | e]; reflexivity.
Qed.

Lemma trigger_then_close_witness :
  trigger "specificFolder" "watchFolderUpdated" true "/watched"
    (watching (Ok tt) (Throw Runs.socket_closed))
  ;;; closeFunction (watching (Ok tt) (Throw Runs.socket_closed))
  = match stopFunction (watching (Ok tt) (Throw Runs.socket_closed)) with
    | Ok _ =>
        ((trace_of (connectToSmbServer
                      (watching (Ok tt) (Throw Runs.socket_closed)))
          ++ [WatchDirectory "/watched" true; StopWatching; ClientClose])%list,
         close (watching (Ok tt) (Throw Runs.socket_closed)))
    | Throw e =>
        ((trace_of (connectToSmbServer
                      (watching (Ok tt) (Throw Runs.socket_closed)))
          ++ [WatchDirectory "/watched" true; StopWatching])%list,
         Throw e)
    end.
Proof.
  apply (trigger_then_close _ _ _ _ _ sample_credentials); reflexivity.
Defined.

End HelpersFacts.

Module WatchFacts.
Import Trigger TriggerFacts.

(** X24.  A response is emitted under at most one selected event: the
    filters exclude one another. *)
Theorem at_most_one_event_matches (e1 e2 : string) (body : ResponseBody) :
  on_response e1 body = [body] ->
  on_response e2 body = [body] ->
  e1 = e2.
Proof.
  intros H1 H2. apply on_response_emits in H1, H2. congruence.
Qed.

Lemma at_most_one_event_matches_witness :
  "fileDeleted" = "fileDeleted".
Proof.
  apply (at_most_one_event_matches "fileDeleted" "fileDeleted"
           {| changeType := 2; filename := "a.txt" |}); reflexivity.
Defined.

End WatchFacts.

Module RenameMore.
Import Rename.

(** X25.  When the rename request is refused, [renameFile] throws the
    refusal and does not close the handle it opened: the close is
    issued only after an accepted open and an accepted rename. *)
Theorem renameFile_refused_leaves_handle_open (A : FilePipePrinterAccess)
    (srv : FileServer) (path newPath : string) (e : JsVal) :
  open_result srv path (desiredAccess A) = Ok tt ->
  rename_result srv newPath = Throw e ->
  renameFile A srv path newPath
  = ([ RegisterFile; FileOpen path (desiredAccess A); FileRename newPath ],
     Throw e)
  /\ ~ In FileClose (trace_of (renameFile A srv path newPath)).
Proof.
  intros Ho Hr.
  assert (Run : renameFile A srv path newPath
    = ([ RegisterFile; FileOpen path (desiredAccess A);
         FileRename newPath ], Throw e)).
  { unfold renameFile, bind, call, emit_event. rewrite Ho, Hr.
    reflexivity. }
  split; [exact Run|]. rewrite Run. simpl. intuition discriminate.
Qed.

Lemma renameFile_refused_leaves_handle_open_witness :
  renameFile protocol_access
    {| open_result := fun _ _ => Ok tt;
       rename_result := fun _ => Throw Runs.access_denied;
       close_result := Ok tt |}
    "old.txt" "new.txt"
  = ([ RegisterFile; FileOpen "old.txt" (desiredAccess protocol_access);
       FileRename "new.txt" ],
     Throw Runs.access_denied)
  /\ ~ In FileClose
         (trace_of
            (renameFile protocol_access
               {| open_result := fun _ _ => Ok tt;
                  rename_result := fun _ => Throw Runs.access_denied;
                  close_result := Ok tt |}
               "old.txt" "new.txt")).
Proof.
  apply renameFile_refused_leaves_handle_open; reflexivity.
Defined.

End RenameMore.

Module SharedFacts.
Import Smb2 NodeFacts.

Lemma node_events_connect (t : list Helpers.Event) :
  Shared.node_events (map Shared.Connect t) = [].
Proof. induction t as [|ev t IH]; [reflexivity|exact IH]. Qed.

Lemma node_events_node (t : list Smb2.Event) :
  Shared.node_events (map Shared.Node t) = t.
Proof. induction t as [|ev t IH]; [reflexivity|]. simpl. now rewrite IH. Qed.

Lemma node_events_app (a b : list Shared.Event) :
  Shared.node_events (a ++ b)
  = (Shared.node_events a ++ Shared.node_events b)%list.
Proof.
  induction a as [|[ev | ev] a IH]; simpl; [reflexivity|exact IH|].
  now rewrite IH.
Qed.

Lemma connect_failure_result (srv : Helpers.Server) (e : JsVal) :
  Helpers.first_failure srv = Some e ->
  exists err, result_of (Helpers.connectToSmbServer srv) = Throw err.
Proof.
  unfold Helpers.first_failure, Helpers.connectToSmbServer. intros F.
  unfold try_catch, bind, call, emit_event.
  destruct (Helpers.getCredentials srv) as [c | e0].
  - destruct (Helpers.authenticate srv) as [u | e1].
    + destruct (Helpers.connectTree srv) as [u' | e2]; [discriminate|].
      rewrite HelpersFacts.rethrow_run. eexists; reflexivity.
    + rewrite HelpersFacts.rethrow_run. eexists; reflexivity.
  - rewrite HelpersFacts.rethrow_run. eexists; reflexivity.
Qed.

(** X26.  In the version built on [connectToSmbServer], a failed
    connection ends [execute] with the error [connectToSmbServer] threw,
    whether continue-on-fail is set or not; no item is processed and
    the client is not closed. *)
Theorem shared_connect_failure_always_throws (srv : Helpers.Server)
    (h : Host) (items : list Item) (e : JsVal) :
  Helpers.first_failure srv = Some e ->
  trace_of (Shared.execute srv h items)
  = map Shared.Connect (trace_of (Helpers.connectToSmbServer srv))
  /\ (exists err,
        result_of (Helpers.connectToSmbServer srv) = Throw err
        /\ result_of (Shared.execute srv h items) = Throw err)
  /\ Shared.node_events (trace_of (Shared.execute srv h items)) = [].
Proof.
  intros F.
  destruct (connect_failure_result srv e F) as [err R].
  assert (Run : Shared.execute srv h items
    = (map Shared.Connect (trace_of (Helpers.connectToSmbServer srv)),
       Throw err)).
  { unfold Shared.execute, Shared.client_assigned, Shared.lift. rewrite R.
    destruct (Helpers.connectToSmbServer srv) as [t res].
    simpl in R. subst res. unfold try_catch, bind, ret, throw. cbn.
    rewrite ?app_nil_r. reflexivity. }
  rewrite Run. split; [reflexivity|]. split; [now exists err|].
  apply node_events_connect.
Qed.

Lemma shared_connect_failure_always_throws_witness :
  trace_of (Shared.execute Helpers.refusing_logon
              (Batch.quiet_delete_host true) Runs.two_items)
  = map Shared.Connect
      (trace_of (Helpers.connectToSmbServer Helpers.refusing_logon)).
Proof.
  apply (shared_connect_failure_always_throws Helpers.refusing_logon
           (Batch.quiet_delete_host true) Runs.two_items
           (JObj ErrorObject
              [ ("message", JStr "STATUS_LOGON_FAILURE");
                ("header",
                  JObj PlainObject [("status", JNum 3221225581)]) ])).
  reflexivity.
Defined.

(** *** The two versions against each other *)

Lemma keep_run {A B : Type} (b : B) (m : N A) :
  Shared.keep b m
  = (trace_of m,
     match result_of m with Ok r => Ok (r, b) | Throw e => Throw e end).
Proof.
  destruct m as [t [r | e]]; unfold Shared.keep, bind, ret; cbn;
    rewrite ?app_nil_r; reflexivity.
Qed.

Lemma shared_readable_run (e : JsVal) :
  Shared.readable e
  = ([], match PerItem.readable_text e with
         | Some text => Ok text
         | None => Throw conversion_error
         end).
Proof.
  unfold Shared.readable, PerItem.readable_text.
  destruct (getReadableError e) as [v|]; [|reflexivity].
  destruct (to_string v); reflexivity.
Qed.

(** The [catch] block of the second version is that of the first
    without the [debug(error)]. *)
Lemma on_failure_copy (h : Host) (label what : string) (i : nat)
    (item : Item) (r : list ReturnItem) (e : JsVal) :
  Shared.on_failure h label what i item r e
  = Shared.quietly (Smb2.on_failure h label what i item r e).
Proof.
  unfold Shared.on_failure, Smb2.on_failure.
  rewrite shared_readable_run, readable_run.
  unfold Shared.quietly, Shared.without_debug, bind, emit_event, ret, throw.
  destruct (truthy e), (PerItem.readable_text e), (continueOnFail h);
    reflexivity.
Qed.

Lemma shared_on_failure_trace (h : Host) (label what : string) (i : nat)
    (item : Item) (r : list ReturnItem) (e : JsVal) :
  trace_of (Shared.on_failure h label what i item r e) = [DebugLog label e].
Proof.
  unfold Shared.on_failure. rewrite shared_readable_run.
  unfold bind, emit_event, ret, throw.
  destruct (PerItem.readable_text e), (continueOnFail h); reflexivity.
Qed.

(** Computations that make no [debug(error)]. *)
Lemma quiet_app (a b : list Smb2.Event) :
  Shared.without_debug a = a -> Shared.without_debug b = b ->
  Shared.without_debug (a ++ b) = (a ++ b)%list.
Proof.
  intros A B. unfold Shared.without_debug in *. now rewrite filter_app, A, B.
Qed.

Lemma quiet_bind {A B : Type} (m : N A) (f : A -> N B) :
  Shared.without_debug (trace_of m) = trace_of m ->
  (forall a, Shared.without_debug (trace_of (f a)) = trace_of (f a)) ->
  Shared.without_debug (trace_of (bind m f)) = trace_of (bind m f).
Proof.
  intros Hm Hf. rewrite trace_bind. apply quiet_app; [exact Hm|].
  destruct (result_of m); [apply Hf|reflexivity].
Qed.

Lemma quiet_call {A : Type} (ev : Smb2.Event) (a : outcome A) :
  Shared.is_debug ev = false ->
  Shared.without_debug (trace_of (call ev a)) = trace_of (call ev a).
Proof.
  intros H. unfold Shared.without_debug. cbn [trace_of call fst filter].
  now rewrite H.
Qed.

Lemma quiet_try_catch {A : Type} (m : N A) (handler : JsVal -> N A) :
  Shared.without_debug (trace_of m) = trace_of m ->
  (forall e, Shared.without_debug (trace_of (handler e))
             = trace_of (handler e)) ->
  Shared.without_debug (trace_of (try_catch m handler))
  = trace_of (try_catch m handler).
Proof.
  intros Hm Hh. rewrite trace_try_catch. apply quiet_app; [exact Hm|].
  destruct (result_of m); [reflexivity|apply Hh].
Qed.

Ltac quiet :=
  repeat first
    [ reflexivity
    | apply quiet_call; reflexivity
    | apply quiet_try_catch; [|intros ?]
    | apply quiet_bind; [|intros ?] ].

Lemma try_catch_copy {A : Type} (m : N A) (h1 h2 : JsVal -> N A) :
  Shared.without_debug (trace_of m) = trace_of m ->
  (forall e, h2 e = Shared.quietly (h1 e)) ->
  try_catch m h2 = Shared.quietly (try_catch m h1).
Proof.
  intros Q H. destruct m as [t [a | e]]; cbn [trace_of fst] in Q;
    unfold try_catch, Shared.quietly; cbn [fst snd].
  - now rewrite Q.
  - rewrite H. unfold Shared.quietly. destruct (h1 e) as [t' r'].
    cbn [fst snd]. unfold Shared.without_debug in *.
    now rewrite filter_app, Q.
Qed.

Lemma try_finally_copy {A : Type} (m : N A) (fin : N unit) :
  Shared.without_debug (trace_of fin) = trace_of fin ->
  try_finally (Shared.quietly m) fin
  = Shared.quietly (try_finally m fin).
Proof.
  intros Q. destruct m as [t r], fin as [t' [u | e]];
    cbn [trace_of fst] in Q; unfold try_finally, Shared.quietly;
    cbn [fst snd]; unfold Shared.without_debug in *;
    now rewrite filter_app, Q.
Qed.

Lemma keep_copy {A B : Type} (b : B) (m : N A) :
  Shared.keep b (Shared.quietly m)
  = (Shared.without_debug (trace_of m),
     match result_of m with Ok r => Ok (r, b) | Throw e => Throw e end).
Proof. now rewrite keep_run. Qed.

Lemma download_body_quiet (h : Host) (i : nat) (item : Item)
    (r : list ReturnItem) (f : option TmpFile) :
  Shared.without_debug
    (trace_of (call TmpFileCreate (Ok tt) ;;; download_body h i item r f))
  = trace_of (call TmpFileCreate (Ok tt) ;;; download_body h i item r f).
Proof.
  unfold download_body. destruct f as [f|]; [|quiet].
  destruct (tmp_path f =? ""); quiet.
Qed.

Lemma download_cleanup_quiet (h : Host) (i : nat) (f : option TmpFile) :
  Shared.without_debug (trace_of (download_cleanup h i f))
  = trace_of (download_cleanup h i f).
Proof.
  unfold download_cleanup. destruct f as [f|]; [|quiet].
  destruct (has_cleanup f); quiet.
Qed.

Lemma upload_body_quiet (h : Host) (i : nat) (item : Item)
    (r : list ReturnItem) :
  Shared.without_debug
    (trace_of (c <- upload_content h i item r ;;
               match c with
               | inr continued => ret continued
               | inl content => upload_write h i item r content
               end))
  = trace_of (c <- upload_content h i item r ;;
              match c with
              | inr continued => ret continued
              | inl content => upload_write h i item r content
              end).
Proof.
  apply quiet_bind.
  - unfold upload_content. destruct (binaryData (params h i)).
    + apply quiet_bind; [quiet|]. intros [b|]; [quiet|].
      destruct (continueOnFail h); quiet.
    + destruct (fileContent (params h i) =? "");
        [destruct (continueOnFail h)|]; quiet.
  - intros [content | continued]; [|quiet].
    unfold upload_write. apply quiet_bind; [|intros ?; quiet].
    destruct (replace (params h i)) as [[|]|]; quiet.
    match goal with a : bool |- _ => destruct a end; quiet.
Qed.

(** A download turn in which [tmpFile] returns runs as in the first
    version, whatever [binaryFile] held before. *)
Lemma download_item_returns (h : Host) (i : nat) (item : Item)
    (r : list ReturnItem) (before assigned : option TmpFile) :
  tmpFile h i = Ok assigned ->
  Shared.download_item h i item r before
  = (Shared.without_debug (trace_of (Smb2.download_item h i item r)),
     match result_of (Smb2.download_item h i item r) with
     | Ok x => Ok (x, assigned)
     | Throw e => Throw e
     end).
Proof.
  intros Ht. unfold Shared.download_item, Smb2.download_item. rewrite Ht.
  rewrite (try_catch_copy _
             (Smb2.on_failure h "Download error:"
                "Failed to download file: " i item r)
             _ (download_body_quiet h i item r assigned)
             (on_failure_copy h _ _ i item r)).
  rewrite (try_finally_copy _ _ (download_cleanup_quiet h i assigned)).
  apply keep_copy.
Qed.

Lemma delete_body_quiet (h : Host) (i : nat) (item : Item)
    (r : list ReturnItem) :
  Shared.without_debug
    (trace_of
       (match folder (params h i) with
        | Some true =>
            call (RemoveDirectory (path (params h i)))
                 (removeDirectory h i (path (params h i))) ;;;
            ret (push r item)
        | _ =>
            call (RemoveFile (path (params h i)))
                 (removeFile h i (path (params h i))) ;;;
            ret (push r item)
        end))
  = trace_of
      (match folder (params h i) with
       | Some true =>
           call (RemoveDirectory (path (params h i)))
                (removeDirectory h i (path (params h i))) ;;;
           ret (push r item)
       | _ =>
           call (RemoveFile (path (params h i)))
                (removeFile h i (path (params h i))) ;;;
           ret (push r item)
       end).
Proof. destruct (folder (params h i)) as [[|]|]; quiet. Qed.

Lemma rename_body_quiet (h : Host) (i : nat) (item : Item)
    (r : list ReturnItem) :
  Shared.without_debug
    (trace_of
       (call (RenameFile (oldPath (params h i)) (newPath (params h i)))
             (renameFile h i (oldPath (params h i)) (newPath (params h i)))
        ;;; ret (push r item)))
  = trace_of
      (call (RenameFile (oldPath (params h i)) (newPath (params h i)))
            (renameFile h i (oldPath (params h i)) (newPath (params h i)))
       ;;; ret (push r item)).
Proof. quiet. Qed.

Lemma process_item_agrees (h : Host) (i : nat) (item : Item)
    (r : list ReturnItem) (before : option TmpFile) :
  operation h <> "download" \/ Shared.tmpFile_returns h ->
  exists after,
    Shared.process_item h i item r before
    = (Shared.without_debug (trace_of (Smb2.process_item h i item r)),
       match result_of (Smb2.process_item h i item r) with
       | Ok x => Ok (x, after)
       | Throw e => Throw e
       end).
Proof.
  intros Hyp. unfold Shared.process_item, Smb2.process_item.
  destruct (operation h =? "list").
  { exists before. rewrite keep_run. f_equal. symmetry.
    unfold list_item.
    apply quiet_bind; [apply quiet_call; reflexivity|intros ?; reflexivity]. }
  destruct (String.eqb_spec (operation h) "download") as [E | _].
  { destruct Hyp as [N | T]; [contradiction|].
    destruct (T i) as [f Hf]. exists f.
    now apply download_item_returns. }
  destruct (operation h =? "upload").
  { exists before. unfold Shared.upload_item, Smb2.upload_item.
    rewrite (try_catch_copy _
               (Smb2.on_failure h "Upload error:"
                  "Failed to upload file: " i item r)
               _ (upload_body_quiet h i item r)
               (on_failure_copy h _ _ i item r)).
    apply keep_copy. }
  destruct (operation h =? "delete").
  { exists before. unfold Shared.delete_item, Smb2.delete_item.
    cbv zeta.
    rewrite (try_catch_copy _
               (Smb2.on_failure h "Delete error:"
                  "Failed to delete file: " i item r)
               _ (delete_body_quiet h i item r)
               (on_failure_copy h _ _ i item r)).
    apply keep_copy. }
  destruct (operation h =? "rename").
  { exists before. unfold Shared.rename_item, Smb2.rename_item.
    cbv zeta.
    rewrite (try_catch_copy _
               (Smb2.on_failure h "Rename error:"
                  "Failed to rename file: " i item r)
               _ (rename_body_quiet h i item r)
               (on_failure_copy h _ _ i item r)).
    apply keep_copy. }
  exists before. reflexivity.
Qed.

Lemma process_items_agree (h : Host) :
  operation h <> "download" \/ Shared.tmpFile_returns h ->
  forall items i r before,
    Shared.process_items h i items r before
    = Shared.quietly (Smb2.process_items h i items r).
Proof.
  intros Hyp. induction items as [|item rest IH]; intros i r before.
  - reflexivity.
  - cbn [Shared.process_items Smb2.process_items].
    destruct (process_item_agrees h i item r before Hyp) as [after ->].
    destruct (Smb2.process_item h i item r) as [t [x | e]];
      unfold bind; cbn [trace_of result_of fst snd]; [|reflexivity].
    rewrite IH. unfold Shared.quietly.
    destruct (Smb2.process_items h (S i) rest x) as [t' r'].
    cbn [fst snd]. unfold Shared.without_debug.
    now rewrite filter_app.
Qed.

(** X27.  On a standing connection the two versions of [execute] agree:
    for every operation other than download, and for download as long
    as [tmpFile] never throws, they return the same result (or throw the
    same error) and, after the connection, make the same calls and
    write the same log lines in the same order, except that the first
    version hands every caught error to [debug] once more, inside its
    own [getReadableError]. *)
Theorem versions_agree (srv : Helpers.Server) (h : Host)
    (items : list Item) :
  Helpers.first_failure srv = None ->
  Batch.connected h ->
  operation h <> "download" \/ Shared.tmpFile_returns h ->
  result_of (Shared.execute srv h items)
  = result_of (Smb2.execute h items)
  /\ Shared.without_debug (trace_of (Smb2.execute h items))
     = (Batch.connect_events
        ++ Shared.node_events (trace_of (Shared.execute srv h items)))%list.
Proof.
  intros F C Hyp.
  assert (Conn : exists t, Helpers.connectToSmbServer srv = (t, Ok tt)).
  { unfold Helpers.first_failure in F.
    unfold Helpers.connectToSmbServer, try_catch, bind, call, emit_event.
    destruct (Helpers.getCredentials srv) as [c | e0]; [|discriminate].
    destruct (Helpers.authenticate srv) as [[] | e1]; [|discriminate].
    destruct (Helpers.connectTree srv) as [[] | e2]; [|discriminate].
    eexists. reflexivity. }
  destruct Conn as [tc Hc].
  rewrite (BatchFacts.execute_connected h items C).
  unfold Shared.execute, Shared.client_assigned, Shared.lift. rewrite Hc.
  rewrite (process_items_agree h Hyp). unfold Shared.quietly.
  destruct (Smb2.process_items h 0 items []) as [t [r | e]];
    unfold try_catch, bind, call, ret, throw; cbn [fst snd map app].
  - destruct (close_after_loop h) as [u | e];
      [|destruct (close_in_catch h) as [u | e']];
      cbn [trace_of result_of fst snd app map];
      rewrite ?app_nil_r, ?node_events_app, ?node_events_connect,
        ?node_events_node; cbn [Shared.node_events app];
      unfold Shared.without_debug;
      rewrite ?filter_app; cbn [filter Batch.connect_events
        Shared.is_debug negb app];
      rewrite <- ?app_assoc; split; reflexivity.
  - destruct (close_in_catch h) as [u | e'];
      cbn [trace_of result_of fst snd app map];
      rewrite ?app_nil_r, ?node_events_app, ?node_events_connect,
        ?node_events_node; cbn [Shared.node_events app];
      unfold Shared.without_debug;
      rewrite ?filter_app; cbn [filter Batch.connect_events
        Shared.is_debug negb app];
      rewrite <- ?app_assoc; split; reflexivity.
Qed.

Lemma versions_agree_witness :
  result_of (Shared.execute Shared.accepting Runs.failing_delete_host
               Runs.two_items)
  = result_of (Smb2.execute Runs.failing_delete_host Runs.two_items)
  /\ Shared.without_debug
       (trace_of (Smb2.execute Runs.failing_delete_host Runs.two_items))
     = (Batch.connect_events
        ++ Shared.node_events
             (trace_of (Shared.execute Shared.accepting
                          Runs.failing_delete_host Runs.two_items)))%list.
Proof.
  apply versions_agree.
  - reflexivity.
  - repeat split.
  - left. discriminate.
Defined.


(** *** The temporary file of an earlier turn *)

Lemma cleanup_filter (h : Host) (i : nat) (f : TmpFile) :
  has_cleanup f = true ->
  filter Calls.is_cleanup (trace_of (download_cleanup h i (Some f)))
  = [TmpCleanup (tmp_path f)].
Proof.
  intros Hc. unfold download_cleanup. rewrite Hc.
  unfold try_catch, call, emit_event.
  destruct (tmp_cleanup h i) as [u | e]; reflexivity.
Qed.

Lemma first_version_cleanup (h : Host) (i : nat) (item : Item)
    (r : list ReturnItem) (f : TmpFile) :
  tmpFile h i = Ok (Some f) ->
  has_cleanup f = true ->
  filter Calls.is_cleanup (trace_of (Smb2.download_item h i item r))
  = [TmpCleanup (tmp_path f)].
Proof.
  intros Ht Hc. unfold Smb2.download_item. rewrite Ht.
  rewrite CallsFacts.trace_try_finally, filter_app.
  rewrite CallsFacts.body_has_no_cleanup. now rewrite cleanup_filter.
Qed.

Lemma cleanup_without_debug (t : list Smb2.Event) :
  filter Calls.is_cleanup (Shared.without_debug t)
  = filter Calls.is_cleanup t.
Proof.
  induction t as [|ev t IH]; [reflexivity|].
  unfold Shared.without_debug in *. destruct ev; cbn; now rewrite ?IH.
Qed.

Lemma failed_tmpFile_turn (h : Host) (i : nat) (item : Item)
    (r : list ReturnItem) (e : JsVal) :
  tmpFile h i = Throw e ->
  filter Calls.is_cleanup (trace_of (Smb2.download_item h i item r)) = []
  /\ forall f, has_cleanup f = true ->
       filter Calls.is_cleanup
         (trace_of (Shared.download_item h i item r (Some f)))
       = [TmpCleanup (tmp_path f)].
Proof.
  intros Ht. unfold Smb2.download_item, Shared.download_item. rewrite Ht.
  split.
  - rewrite trace_try_catch, filter_app.
    cbn [trace_of call fst result_of snd].
    rewrite on_failure_trace. now destruct (truthy e).
  - intros f Hc. rewrite trace_bind, filter_app.
    rewrite CallsFacts.trace_try_finally, filter_app.
    rewrite trace_try_catch, filter_app. cbn [trace_of call fst result_of snd].
    rewrite shared_on_failure_trace, (cleanup_filter h i f Hc). cbn.
    match goal with
    | |- context [match ?o with Ok _ => _ | Throw _ => _ end] => destruct o
    end; reflexivity.
Qed.

(** X28.  In the version that declares [binaryFile] before the loop, a
    download whose temporary file cannot be created removes the
    temporary file of the turn before once more: over two items, when
    [tmpFile] returns a file for item 0 and throws for item 1 (under
    continue-on-fail, the first turn not ending with the TypeError of
    an error that has no string form), that file is removed twice,
    whereas the version with a [binaryFile] per turn removes it once. *)
Theorem stale_temp_file_is_removed_again (h : Host) (item0 item1 : Item)
    (f : TmpFile) (e : JsVal) :
  operation h = "download" ->
  continueOnFail h = true ->
  tmpFile h 0 = Ok (Some f) ->
  has_cleanup f = true ->
  tmpFile h 1 = Throw e ->
  result_of (Smb2.download_item h 0 item0 []) <> Throw conversion_error ->
  filter Calls.is_cleanup
    (trace_of (Shared.process_items h 0 [item0; item1] [] None))
  = [TmpCleanup (tmp_path f); TmpCleanup (tmp_path f)]
  /\ filter Calls.is_cleanup
       (trace_of (Smb2.process_items h 0 [item0; item1] []))
     = [TmpCleanup (tmp_path f)].
Proof.
  intros Op K T0 Hc T1 Printable.
  assert (NotList : (operation h =? "list") = false) by now rewrite Op.
  assert (D0 : Smb2.process_item h 0 item0 [] = Smb2.download_item h 0 item0 [])
    by (unfold Smb2.process_item; now rewrite Op).
  destruct (siblings_continue h 0 item0 [] K NotList) as [[x Hx] | Hx];
    rewrite D0 in Hx; [|contradiction].
  pose proof (first_version_cleanup h 0 item0 [] f T0 Hc) as F0.
  destruct (failed_tmpFile_turn h 1 item1 x e T1) as [F1 F1'].
  split.
  - cbn [Shared.process_items]. unfold Shared.process_item. rewrite Op.
    cbn [String.eqb Ascii.eqb Bool.eqb].
    rewrite (download_item_returns h 0 item0 [] None (Some f) T0).
    rewrite trace_bind, filter_app. cbn [trace_of result_of fst snd].
    rewrite Hx, cleanup_without_debug, F0. cbn [fst snd].
    rewrite trace_bind, filter_app, (F1' f Hc).
    match goal with
    | |- context [match ?o with Ok _ => _ | Throw _ => _ end] => destruct o
    end; reflexivity.
  - cbn [Smb2.process_items]. rewrite D0.
    rewrite trace_bind, filter_app, F0, Hx.
    assert (D1 : Smb2.process_item h 1 item1 x
                 = Smb2.download_item h 1 item1 x)
      by (unfold Smb2.process_item; now rewrite Op).
    rewrite trace_bind, filter_app, D1, F1.
    match goal with
    | |- context [match ?o with Ok _ => _ | Throw _ => _ end] => destruct o
    end; reflexivity.
Qed.

Lemma stale_temp_file_is_removed_again_witness :
  filter Calls.is_cleanup
    (trace_of (Shared.process_items Shared.second_tmpFile_fails 0
                 Runs.two_items [] None))
  = [ TmpCleanup (tmp_path Calls.the_tmp_file);
      TmpCleanup (tmp_path Calls.the_tmp_file) ]
  /\ filter Calls.is_cleanup
       (trace_of (Smb2.process_items Shared.second_tmpFile_fails 0
                    Runs.two_items []))
     = [TmpCleanup (tmp_path Calls.the_tmp_file)].
Proof.
  apply (stale_temp_file_is_removed_again Shared.second_tmpFile_fails _ _
           Calls.the_tmp_file Runs.unlink_failed); try reflexivity.
  vm_compute. discriminate.
Defined.

End SharedFacts.
